(** * dz3: a line-oriented configuration language translated to a document

    Shallow embedding of [src/dz3.py] (class [ConfigParser]) and the
    properties of its parser and expression evaluator.

    Modelling choices, all taken from the source:
    - text is a [string] whose characters are the code points U+0000..U+00FF;
      the character classes of [str.isdigit], [str.strip], [str.splitlines]
      and of the [re] escapes are the interpreter's classes on that range;
    - an [int] is a [Z]; a [float] is an IEEE-754 binary64 number
      ([spec_float] with 53 bits of precision), a [str] value is a list of
      code points (so that [chr] is defined on its full range);
    - a [dict] is an association list in insertion order, assignment to an
      existing key keeps the key's position;
    - a raised exception is the [Err] alternative of [result];
    - the regular expressions of the source are sequences of single
      characters, character classes, greedy repetitions of a class and
      capturing groups, matched by backtracking from the start of the text
      ([re.match]).
    The interpreter's configurable limit on the number of digits of an
    [int] literal and its memory limits are not modelled. *)

From Stdlib Require Import ZArith NArith List String Ascii Bool Lia.
From Stdlib Require Import DecimalString DecimalN SpecFloat.
Import ListNotations.

Local Open Scope string_scope.
Local Open Scope Z_scope.

(* ------------------------------------------------------------------ *)
(** ** Results and exceptions *)

Inductive exn : Type :=
| SyntaxError (msg : string)   (* the parser's own exception class *)
| ValueError
| TypeError
| ZeroDivisionError
| OverflowError.

Inductive result (A : Type) : Type :=
| OK (a : A)
| Err (e : exn).

Arguments OK {A} a.
Arguments Err {A} e.

Definition bind {A B : Type} (r : result A) (k : A -> result B) : result B :=
  match r with
  | OK a => k a
  | Err e => Err e
  end.

Notation "x <- r ;; k" := (bind r (fun x => k))
  (at level 61, r at next level, right associativity).

Definition is_syntax_error {A : Type} (r : result A) : bool :=
  match r with
  | Err (SyntaxError _) => true
  | _ => false
  end.

(* ------------------------------------------------------------------ *)
(** ** Characters and the string built-ins the source calls *)

Module PyStr.

Definition code (c : ascii) : N := N_of_ascii c.

Definition between (lo hi : N) (c : ascii) : bool :=
  ((lo <=? code c) && (code c <=? hi))%N.

Definition is_code (n : N) (c : ascii) : bool := (code c =? n)%N.

(** [0-9], also the class of [\d] on this range. *)
Definition dec_digit (c : ascii) : bool := between 48 57 c.

(** Characters for which [str.isdigit] holds: the decimal digits and the
    superscripts U+00B2, U+00B3, U+00B9. *)
Definition isdigit_char (c : ascii) : bool :=
  dec_digit c || is_code 178 c || is_code 179 c || is_code 185 c.

(** White space of [str.strip], [str.isspace] and [\s]. *)
Definition isspace_char (c : ascii) : bool :=
  between 9 13 c || between 28 32 c || is_code 133 c || is_code 160 c.

(** White space skipped by [int(...)] around the literal. *)
Definition int_space (c : ascii) : bool :=
  between 9 13 c || is_code 32 c || is_code 133 c || is_code 160 c.

(** Line boundaries of [str.splitlines]. *)
Definition is_linebreak (c : ascii) : bool :=
  between 10 13 c || between 28 30 c || is_code 133 c.

(** The classes "[a-zA-Z_]" and "[a-zA-Z0-9_]". *)
Definition ident_start (c : ascii) : bool :=
  between 65 90 c || between 97 122 c || is_code 95 c.

Definition ident_char (c : ascii) : bool := ident_start c || dec_digit c.

(** [.] without DOTALL: anything but a line feed. *)
Definition not_newline (c : ascii) : bool := negb (is_code 10 c).

Definition nonspace_char (c : ascii) : bool := negb (isspace_char c).

Definition is_char (a : ascii) (c : ascii) : bool := Ascii.eqb a c.

Fixpoint forallb_str (p : ascii -> bool) (s : string) : bool :=
  match s with
  | EmptyString => true
  | String c s' => p c && forallb_str p s'
  end.

Definition nonempty (s : string) : bool :=
  match s with
  | EmptyString => false
  | String _ _ => true
  end.

(** [s.isdigit()] *)
Definition isdigit (s : string) : bool := nonempty s && forallb_str isdigit_char s.

(** [s.startswith(p)] *)
Fixpoint startswith (p s : string) : bool :=
  match p with
  | EmptyString => true
  | String a p' =>
      match s with
      | String b s' => is_char a b && startswith p' s'
      | EmptyString => false
      end
  end.

Fixpoint rev_str (acc s : string) : string :=
  match s with
  | EmptyString => acc
  | String c s' => rev_str (String c acc) s'
  end.

(** [s.endswith(p)] *)
Definition endswith (p s : string) : bool :=
  startswith (rev_str "" p) (rev_str "" s).

Fixpoint lstrip_with (p : ascii -> bool) (s : string) : string :=
  match s with
  | EmptyString => EmptyString
  | String c s' => if p c then lstrip_with p s' else s
  end.

Fixpoint rstrip_with (p : ascii -> bool) (s : string) : string :=
  match s with
  | EmptyString => EmptyString
  | String c s' =>
      match rstrip_with p s' with
      | EmptyString => if p c then EmptyString else String c EmptyString
      | r => String c r
      end
  end.

(** [s.strip()] *)
Definition strip (s : string) : string :=
  rstrip_with isspace_char (lstrip_with isspace_char s).

(** [s.replace("\n", " ")] *)
Fixpoint replace_newlines (s : string) : string :=
  match s with
  | EmptyString => EmptyString
  | String c s' =>
      String (if is_code 10 c then " "%char else c) (replace_newlines s')
  end.

(** [s[a:-b]] for a positive [b]: empty when the string is too short. *)
Definition slice (a b : nat) (s : string) : string :=
  String.substring a (String.length s - b - a) s.

(** [s.splitlines()]: [cur] is the current line, in reverse. A carriage
    return followed by a line feed is one boundary; a text that ends in a
    boundary has no empty last line. *)
Fixpoint splitlines_from (cur : string) (s : string) : list string :=
  match s with
  | EmptyString =>
      match cur with
      | EmptyString => []
      | _ => [rev_str "" cur]
      end
  | String c s' =>
      if is_code 13 c then
        match s' with
        | String d s'' =>
            if is_code 10 d then rev_str "" cur :: splitlines_from "" s''
            else rev_str "" cur :: splitlines_from "" s'
        | EmptyString => [rev_str "" cur]
        end
      else if is_linebreak c then rev_str "" cur :: splitlines_from "" s'
      else splitlines_from (String c cur) s'
  end.

Definition splitlines (s : string) : list string := splitlines_from "" s.

(** Value of a string of decimal digits, most significant first. *)
Fixpoint digits_value (acc : Z) (s : string) : Z :=
  match s with
  | EmptyString => acc
  | String c s' => digits_value (10 * acc + (Z.of_N (code c) - 48)) s'
  end.

(** Body of an [int] literal in base 10: decimal digits, single
    underscores allowed between two digits. [prev] tells whether the
    previous character was a digit. *)
Fixpoint int_body (prev : bool) (acc : Z) (s : string) : option Z :=
  match s with
  | EmptyString => if prev then Some acc else None
  | String c s' =>
      if dec_digit c then int_body true (10 * acc + (Z.of_N (code c) - 48)) s'
      else if is_char "_" c && prev then
        match s' with
        | EmptyString => None
        | String d _ => if dec_digit d then int_body false acc s' else None
        end
      else None
  end.

(** [int(s)]: optional white space, optional sign, the literal's body;
    anything else raises ValueError. *)
Definition int (s : string) : result Z :=
  match rstrip_with int_space (lstrip_with int_space s) with
  | String c s' =>
      if is_char "-" c then
        match int_body false 0 s' with Some z => OK (- z) | None => Err ValueError end
      else if is_char "+" c then
        match int_body false 0 s' with Some z => OK z | None => Err ValueError end
      else
        match int_body false 0 (String c s') with Some z => OK z | None => Err ValueError end
  | EmptyString => Err ValueError
  end.

(** [str(n)] for a natural number. *)
Definition str_of_N (n : N) : string := NilEmpty.string_of_uint (N.to_uint n).

(** The code points of a text. *)
Fixpoint codepoints (s : string) : list N :=
  match s with
  | EmptyString => []
  | String c s' => code c :: codepoints s'
  end.

End PyStr.

(* ------------------------------------------------------------------ *)
(** ** Regular expressions of the source, matched as [re.match] does *)

Module Regex.

Inductive node : Type :=
| One (p : ascii -> bool)     (* one character of a class (or a literal) *)
| Star (p : ascii -> bool)    (* greedy [p*] *)
| Plus (p : ascii -> bool)    (* greedy [p+] *)
| Open                        (* [(] : start of a capturing group *)
| Close                       (* [)] : end of a capturing group *)
| Eol.                        (* [$] : end of text, or before a final line feed *)

Definition regex := list node.

Definition Lit (a : ascii) : node := One (PyStr.is_char a).

Definition snoc (s : string) (c : ascii) : string := s ++ String c EmptyString.

(** Greedy repetition: take one more character when the class allows it
    and the rest of the pattern then matches, otherwise stop here. [cur] is
    the text consumed since the last [Open]. *)
Fixpoint star (p : ascii -> bool) (k : string -> string -> option (list string))
         (cur s : string) : option (list string) :=
  match s with
  | String c s' =>
      if p c then
        match star p k (snoc cur c) s' with
        | Some r => Some r
        | None => k cur s
        end
      else k cur s
  | EmptyString => k cur s
  end.

Fixpoint run (re : regex) (caps : list string) (cur s : string) : option (list string) :=
  match re with
  | [] => Some caps
  | One p :: re' =>
      match s with
      | String c s' => if p c then run re' caps (snoc cur c) s' else None
      | EmptyString => None
      end
  | Star p :: re' => star p (run re' caps) cur s
  | Plus p :: re' =>
      match s with
      | String c s' => if p c then star p (run re' caps) (snoc cur c) s' else None
      | EmptyString => None
      end
  | Open :: re' => run re' caps EmptyString s
  | Close :: re' => run re' (caps ++ [cur]) cur s
  | Eol :: re' =>
      match s with
      | EmptyString => run re' caps cur s
      | String c EmptyString => if PyStr.is_code 10 c then run re' caps cur s else None
      | _ => None
      end
  end.

(** [re.match(re, s)]: [Some groups] on a match at the start of [s]. The
    leading [^] of a pattern is implied. *)
Definition rmatch (re : regex) (s : string) : option (list string) :=
  run re [] EmptyString s.

(** [m.groups()[i]] *)
Definition group (i : nat) (m : list string) : string := nth i m EmptyString.

End Regex.

(* ------------------------------------------------------------------ *)
(** ** Values and the arithmetic of the interpreter on them *)

Module PyNum.

Inductive Value : Type :=
| VInt (z : Z)
| VFloat (f : spec_float)
| VStr (s : list N).

Definition prec : Z := 53.
Definition emax : Z := 1024.

Definition is_inf (f : spec_float) : bool :=
  match f with
  | S754_infinity _ => true
  | _ => false
  end.

Definition is_zero (f : spec_float) : bool :=
  match f with
  | S754_zero _ => true
  | _ => false
  end.

(** An integer as an exact (unrounded) dyadic number. *)
Definition exact (z : Z) : spec_float :=
  match z with
  | Z0 => S754_zero false
  | Zpos p => S754_finite false p 0
  | Zneg p => S754_finite true p 0
  end.

(** Conversion of an [int] operand to [float]: nearest double, ties to
    even; OverflowError when the integer is too large. *)
Definition float_of_int (z : Z) : result spec_float :=
  let f := binary_normalize prec emax z 0 false in
  if is_inf f then Err OverflowError else OK f.

(** [a / b] on two [int]s: the quotient rounded once to the nearest
    double. *)
Definition int_truediv (a b : Z) : result spec_float :=
  if b =? 0 then Err ZeroDivisionError
  else
    let q := SFdiv prec emax (exact a) (exact b) in
    if is_inf q then Err OverflowError else OK q.

(** [x / y] on two [float]s. *)
Definition float_truediv (x y : spec_float) : result spec_float :=
  if is_zero y then Err ZeroDivisionError else OK (SFdiv prec emax x y).

Definition to_float (v : Value) : option (result spec_float) :=
  match v with
  | VInt z => Some (float_of_int z)
  | VFloat f => Some (OK f)
  | VStr _ => None
  end.

(** A [float] operation on two numbers of which at least one is a
    [float]: the left operand is converted first. *)
Definition float_op (op : spec_float -> spec_float -> result spec_float)
           (l r : Value) : result Value :=
  match to_float l, to_float r with
  | Some cl, Some cr => x <- cl ;; y <- cr ;; f <- op x y ;; OK (VFloat f)
  | _, _ => Err TypeError
  end.

Definition repeat_str (s : list N) (n : Z) : list N :=
  List.concat (List.repeat s (Z.to_nat n)).

(** [l + r] *)
Definition add (l r : Value) : result Value :=
  match l, r with
  | VInt a, VInt b => OK (VInt (a + b))
  | VStr s, VStr t => OK (VStr (s ++ t))
  | _, _ => float_op (fun x y => OK (SFadd prec emax x y)) l r
  end.

(** [l - r] *)
Definition sub (l r : Value) : result Value :=
  match l, r with
  | VInt a, VInt b => OK (VInt (a - b))
  | _, _ => float_op (fun x y => OK (SFsub prec emax x y)) l r
  end.

(** [l * r] *)
Definition mul (l r : Value) : result Value :=
  match l, r with
  | VInt a, VInt b => OK (VInt (a * b))
  | VStr s, VInt n => OK (VStr (repeat_str s n))
  | VInt n, VStr s => OK (VStr (repeat_str s n))
  | _, _ => float_op (fun x y => OK (SFmul prec emax x y)) l r
  end.

(** [l / r] *)
Definition truediv (l r : Value) : result Value :=
  match l, r with
  | VInt a, VInt b => f <- int_truediv a b ;; OK (VFloat f)
  | _, _ => float_op float_truediv l r
  end.

(** [-v] *)
Definition neg (v : Value) : result Value :=
  match v with
  | VInt a => OK (VInt (- a))
  | VFloat f => OK (VFloat (SFopp f))
  | VStr _ => Err TypeError
  end.

(** [chr(z)] *)
Definition chr (z : Z) : result Value :=
  if (z <? - 2 ^ 31) || (2 ^ 31 <=? z) then Err OverflowError
  else if (z <? 0) || (1114112 <=? z) then Err ValueError
  else OK (VStr [Z.to_N z]).

(** Leading decimal digits of a text and what follows them. *)
Fixpoint span_digits (s : string) : string * string :=
  match s with
  | String c s' =>
      if PyStr.dec_digit c then
        let (d, r) := span_digits s' in (String c d, r)
      else (EmptyString, s)
  | EmptyString => (EmptyString, EmptyString)
  end.

(** [float(s)] on the literals its caller passes, [<digits>.<digits>]
    with optional white space around: the decimal value rounded once to the
    nearest double. Other texts are not literals of this shape. *)
Definition float (s : string) : result spec_float :=
  let (ip, r) := span_digits (PyStr.strip s) in
  match r with
  | String c r' =>
      let (fp, rest) := span_digits r' in
      if PyStr.is_char "." c && PyStr.nonempty ip && PyStr.nonempty fp
         && negb (PyStr.nonempty rest)
      then OK (SFdiv prec emax
                 (exact (PyStr.digits_value 0 (ip ++ fp)))
                 (exact (10 ^ Z.of_nat (String.length fp))))
      else Err ValueError
  | EmptyString => Err ValueError
  end.

End PyNum.

(* ------------------------------------------------------------------ *)
(** ** Dictionaries with text keys *)

Module Dict.

Definition dict (V : Type) : Type := list (string * V).

Fixpoint get {V : Type} (k : string) (d : dict V) : option V :=
  match d with
  | [] => None
  | (k', v) :: d' => if String.eqb k k' then Some v else get k d'
  end.

(** [k in d] *)
Definition mem {V : Type} (k : string) (d : dict V) : bool :=
  match get k d with
  | Some _ => true
  | None => false
  end.

(** [d[k] = v] *)
Fixpoint set {V : Type} (k : string) (v : V) (d : dict V) : dict V :=
  match d with
  | [] => [(k, v)]
  | (k', v') :: d' =>
      if String.eqb k k' then (k, v) :: d' else (k', v') :: set k v d'
  end.

Definition keys {V : Type} (d : dict V) : list string := map fst d.

End Dict.

(* ------------------------------------------------------------------ *)
(** ** The parser: class [ConfigParser] *)

Module ConfigParser.

Import PyStr Regex PyNum.

Definition constants_t : Type := Dict.dict Value.
Definition block_t : Type := Dict.dict Value.
Definition document_t : Type := Dict.dict block_t.

Definition space : ascii -> bool := isspace_char.

(** The class "[-+*/]". *)
Definition is_op (c : ascii) : bool :=
  is_char "-" c || is_char "+" c || is_char "*" c || is_char "/" c.

(** The pattern of [_parse_constant], "def\s+(ID)\s*:=\s*(.+)" where ID
    stands for "[a-zA-Z_][a-zA-Z0-9_]*". *)
Definition re_constant : regex :=
  [Lit "d"; Lit "e"; Lit "f"; Plus space;
   Open; One ident_start; Star ident_char; Close;
   Star space; Lit ":"; Lit "="; Star space;
   Open; Plus not_newline; Close].

(** The pattern of the binary form, "#\((OP)\s*(\S+)\s*(\S+)\)" where OP
    stands for "[-+*/]". *)
Definition re_binary : regex :=
  [Lit "#"; Lit "("; Open; One is_op; Close; Star space;
   Open; Plus nonspace_char; Close; Star space;
   Open; Plus nonspace_char; Close; Lit ")"].

(** The pattern of the unary form, "#\((OP)\s*(.+)\)". *)
Definition re_unary : regex :=
  [Lit "#"; Lit "("; Open; One is_op; Close; Star space;
   Open; Plus not_newline; Close; Lit ")"].

(** The pattern of [_parse_key_value], "(ID) = (.+);". *)
Definition re_key_value : regex :=
  [Open; One ident_start; Star ident_char; Close;
   Lit " "; Lit "="; Lit " ";
   Open; Plus not_newline; Close; Lit ";"].

(** The pattern "^\d+\.\d+$" of [_parse_value]. *)
Definition re_float : regex :=
  [Plus dec_digit; Lit "."; Plus dec_digit; Eol].

(** [_get_value_from_expression] *)
Definition _get_value_from_expression (cs : constants_t) (value : string)
  : result Value :=
  if isdigit value then z <- int value ;; OK (VInt z)
  else
    match Dict.get value cs with
    | Some v => OK v
    | None => Err (SyntaxError ("Unknown variable or value: " ++ value))
    end.

(** The operator dispatch of the binary form. *)
Definition apply_binary (op : string) (left_val right_val : Value) : result Value :=
  if String.eqb op "+" then add left_val right_val
  else if String.eqb op "-" then sub left_val right_val
  else if String.eqb op "*" then mul left_val right_val
  else if String.eqb op "/" then truediv left_val right_val
  else Err (SyntaxError ("Unsupported operation: " ++ op)).

(** The operator dispatch of the unary form. *)
Definition apply_unary (op : string) (inner_value : Value) : result Value :=
  if String.eqb op "+" then OK inner_value
  else if String.eqb op "-" then neg inner_value
  else if String.eqb op "*" then OK inner_value
  else if String.eqb op "/" then truediv (VInt 1) inner_value
  else Err (SyntaxError ("Unsupported operation: " ++ op)).

(** [_evaluate_expression], the recursion on the inner expression of the
    unary form bounded by [fuel]; [None] when the bound is reached. *)
Fixpoint eval_fuel (fuel : nat) (cs : constants_t) (expr : string)
  : option (result Value) :=
  match fuel with
  | O => None
  | S fuel' =>
      if isdigit expr then Some (z <- int expr ;; OK (VInt z))
      else if startswith "chr(" expr && endswith ")" expr then
        Some (z <- int (slice 4 1 expr) ;; chr z)
      else
        match rmatch re_binary expr with
        | Some m =>
            Some (left_val <- _get_value_from_expression cs (group 1 m) ;;
                  right_val <- _get_value_from_expression cs (group 2 m) ;;
                  apply_binary (group 0 m) left_val right_val)
        | None =>
            match rmatch re_unary expr with
            | Some m =>
                match eval_fuel fuel' cs (group 1 m) with
                | Some r => Some (inner_value <- r ;; apply_unary (group 0 m) inner_value)
                | None => None
                end
            | None => Some (Err (SyntaxError ("Invalid expression: " ++ expr)))
            end
        end
  end.

(** [_evaluate_expression]: the inner expression of the unary form is
    shorter than the expression, so the length of the text bounds the
    recursion ([eval_fuel_enough] below). *)
Definition _evaluate_expression (cs : constants_t) (expr : string) : result Value :=
  match eval_fuel (S (String.length expr)) cs expr with
  | Some r => r
  | None => Err (SyntaxError ("Invalid expression: " ++ expr))
  end.

(** [_parse_constant]: the new table of constants. *)
Definition _parse_constant (cs : constants_t) (line : string) : result constants_t :=
  match rmatch re_constant line with
  | None => Err (SyntaxError ("Invalid constant definition: " ++ line))
  | Some m =>
      let name := group 0 m in
      let value_expr := replace_newlines (group 1 m) in
      value <- _evaluate_expression cs (strip value_expr) ;;
      OK (Dict.set name value cs)
  end.

(** [_parse_value] *)
Definition _parse_value (cs : constants_t) (value : string) : result Value :=
  if isdigit value then z <- int value ;; OK (VInt z)
  else
    match rmatch re_float value with
    | Some _ => f <- float value ;; OK (VFloat f)
    | None =>
        if startswith "[[" value && endswith "]]" value then
          OK (VStr (codepoints (slice 2 2 value)))
        else
          match Dict.get value cs with
          | Some v => OK v
          | None => Err (SyntaxError ("Invalid value: " ++ value))
          end
    end.

(** [_parse_key_value] *)
Definition _parse_key_value (cs : constants_t) (line : string)
  : result (string * Value) :=
  match rmatch re_key_value line with
  | None => Err (SyntaxError ("Invalid key-value pair: " ++ line))
  | Some m =>
      value <- _parse_value cs (group 1 m) ;;
      OK (group 0 m, value)
  end.

(** [f"dict{index}"] *)
Definition dict_name (index : N) : string := "dict" ++ str_of_N index.

(** The loop of [_generate_dict_name]: [fuel] bounds the number of
    probes. *)
Fixpoint probe (fuel : nat) (index : N) (parsed_data : document_t) : option string :=
  match fuel with
  | O => None
  | S fuel' =>
      if Dict.mem (dict_name index) parsed_data
      then probe fuel' (index + 1)%N parsed_data
      else Some (dict_name index)
  end.

(** [_generate_dict_name]: a document of [n] blocks uses at most [n] of
    the first [n + 1] names, so [n + 1] probes find a free one
    ([probe_enough] below) and the last alternative is never taken. *)
Definition _generate_dict_name (parsed_data : document_t) : string :=
  match probe (S (List.length parsed_data)) 1%N parsed_data with
  | Some name => name
  | None => dict_name 1
  end.

(** The state of [parse]: the parser's table of constants and the two
    local variables of the loop. *)
Record state : Type := mkState {
  constants : constants_t;
  parsed_data : document_t;
  current_dict : option block_t
}.

(** The body of the loop of [parse] on one physical line. *)
Definition step (st : state) (raw : string) : result state :=
  let line := strip raw in
  if negb (nonempty line) || startswith "#" line then OK st
  else if startswith "def " line then
    cs <- _parse_constant (constants st) line ;;
    OK (mkState cs (parsed_data st) (current_dict st))
  else if startswith "@{" line then
    match current_dict st with
    | Some _ => Err (SyntaxError "Nested dictionaries are not allowed.")
    | None => OK (mkState (constants st) (parsed_data st) (Some []))
    end
  else
    match current_dict st with
    | Some d =>
        if startswith "}" line then
          (* elif line.startswith("}") and current_dict is not None *)
          let dict_name := _generate_dict_name (parsed_data st) in
          OK (mkState (constants st) (Dict.set dict_name d (parsed_data st)) None)
        else
          (* elif current_dict is not None *)
          kv <- _parse_key_value (constants st) line ;;
          OK (mkState (constants st) (parsed_data st)
                      (Some (Dict.set (fst kv) (snd kv) d)))
    | None => Err (SyntaxError ("Unexpected line: " ++ line))
    end.

(** The loop of [parse]. *)
Fixpoint run_lines (st : state) (lines : list string) : result state :=
  match lines with
  | [] => OK st
  | line :: rest => st' <- step st line ;; run_lines st' rest
  end.

(** The state in which [parse] starts. *)
Definition start (cs : constants_t) : state := mkState cs [] None.

(** [parse] on a parser whose table of constants is [cs]: the final
    state, of which [parse] returns [parsed_data]. *)
Definition parse_state (cs : constants_t) (input_text : string) : result state :=
  run_lines (start cs) (splitlines (strip input_text)).

(** [parse] *)
Definition parse (cs : constants_t) (input_text : string) : result document_t :=
  st <- parse_state cs input_text ;; OK (parsed_data st).

(** [ConfigParser().parse(input_text)], as [main] calls it. *)
Definition parse_text (input_text : string) : result document_t :=
  parse [] input_text.

End ConfigParser.

(* ------------------------------------------------------------------ *)
(** ** Shapes of text the statements speak about *)

Import PyStr Regex PyNum ConfigParser.

(** An identifier: a letter or underscore, then letters, digits and
    underscores. *)
Definition is_identifier (s : string) : bool :=
  match s with
  | String c s' => ident_start c && forallb_str ident_char s'
  | EmptyString => false
  end.

(** A literal made of decimal digits only. *)
Definition is_digits (s : string) : bool := nonempty s && forallb_str dec_digit s.

(** An operand token of the binary form: digits or an identifier. *)
Definition is_operand (s : string) : bool := is_digits s || is_identifier s.

(** The text stops a repetition of the class [p]: it is empty or starts
    with a character outside [p]. *)
Definition stops (p : ascii -> bool) (s : string) : bool :=
  match s with
  | EmptyString => true
  | String c _ => negb (p c)
  end.

(** All keys of a table of constants are identifiers, as the pattern of
    [_parse_constant] makes them. *)
Definition constants_wf (cs : constants_t) : bool :=
  forallb is_identifier (Dict.keys cs).

(** The lines the key-value pattern matches: an identifier, [ = ], a
    non-empty text without line feed and a semicolon, then any [rest]. *)
Definition key_value_prefix (line : string) : Prop :=
  exists key value rest,
    line = key ++ " = " ++ value ++ ";" ++ rest /\
    is_identifier key = true /\
    nonempty value = true /\ forallb_str not_newline value = true.

(** The shape of a key-value line, in the words of the specification:
    an identifier, [ = ] with single spaces around the sign, a value and a
    semicolon. The value is not empty and does not start with white space
    (that would be extra space after the sign). What follows the semicolon
    is [rest]. *)
Definition key_value_shape (line : string) : Prop :=
  exists key value rest,
    line = key ++ " = " ++ value ++ ";" ++ rest /\
    is_identifier key = true /\
    nonempty value = true /\ stops space value = true.

(** A block is open. *)
Definition in_block (st : state) : bool :=
  match current_dict st with
  | Some _ => true
  | None => false
  end.

(** A line in a position where the state machine has no transition: a
    block-open while a block is open, or, with no block open, a line that is
    not blank, not a comment, not a declaration and not a block-open. *)
Definition misplaced (st : state) (line : string) : bool :=
  if startswith "@{" line then in_block st
  else nonempty line && negb (startswith "#" line)
       && negb (startswith "def " line) && negb (in_block st).

(** The line does not close a block. *)
Definition not_closing (raw : string) : bool := negb (startswith "}" (strip raw)).

(** One half, as a double. *)
Definition half : spec_float := S754_finite false 4503599627370496 (-53).

(** The text holds no semicolon. *)
Definition no_semicolon (s : string) : bool :=
  forallb_str (fun c => negb (is_char ";" c)) s.

(** The value of a decimal digit. *)
Definition digit_value (c : ascii) : Z := Z.of_N (code c) - 48.

(** The two messages with which the evaluator raises its SyntaxError. *)
Definition evaluator_message (msg : string) : bool :=
  startswith "Invalid expression: " msg
  || startswith "Unknown variable or value: " msg.

(** A word: a non-empty text without white space. *)
Definition is_word (s : string) : bool := nonempty s && forallb_str nonspace_char s.

(** White space only (possibly none). *)
Definition is_blank (s : string) : bool := forallb_str isspace_char s.

(** A physical line the loop of [parse] passes over: blank, or a comment. *)
Definition is_skipped (raw : string) : bool :=
  negb (nonempty (strip raw)) || startswith "#" (strip raw).


(** All keys of a block body are identifiers. *)
Definition block_wf (d : block_t) : bool := forallb is_identifier (Dict.keys d).

(** The keys of the table of constants, of every block of the document and
    of the open block are identifiers. *)
Definition state_wf (st : state) : bool :=
  constants_wf (constants st)
  && forallb (fun entry => block_wf (snd entry)) (parsed_data st)
  && match current_dict st with
     | Some d => block_wf d
     | None => true
     end.

(** [d1] is the beginning of [d2]. *)
Definition extends {V : Type} (d1 d2 : Dict.dict V) : Prop :=
  exists more, d2 = (d1 ++ more)%list.

(* ------------------------------------------------------------------ *)
(** ** Characters *)

Ltac by_char c :=
  destruct c as [[] [] [] [] [] [] [] []]; vm_compute;
  try reflexivity; try discriminate; intros; try discriminate; try reflexivity.

Lemma ident_start_char : forall c, ident_start c = true -> ident_char c = true.
Proof. intro c. by_char c. Qed.

Lemma dec_digit_ident : forall c, dec_digit c = true -> ident_char c = true.
Proof. intro c. by_char c. Qed.

Lemma dec_digit_isdigit : forall c, dec_digit c = true -> isdigit_char c = true.
Proof. intro c. by_char c. Qed.

Lemma ident_char_nonspace : forall c, ident_char c = true -> isspace_char c = false.
Proof. intro c. by_char c. Qed.

Lemma ident_char_not_newline : forall c, ident_char c = true -> not_newline c = true.
Proof. intro c. by_char c. Qed.

Lemma ident_start_not_digit : forall c, ident_start c = true -> isdigit_char c = false.
Proof. intro c. by_char c. Qed.

Lemma ident_start_not_dec : forall c, ident_start c = true -> dec_digit c = false.
Proof. intro c. by_char c. Qed.

Lemma dec_digit_not_int_space : forall c, dec_digit c = true -> int_space c = false.
Proof. intro c. by_char c. Qed.

Lemma dec_digit_not_sign :
  forall c, dec_digit c = true -> is_char "-" c = false /\ is_char "+" c = false.
Proof. intro c. by_char c; split; reflexivity. Qed.

Lemma is_char_eq : forall a c, is_char a c = true -> c = a.
Proof. intros a c H. apply Ascii.eqb_eq in H. congruence. Qed.

Lemma is_char_refl : forall a, is_char a a = true.
Proof. intro a. apply Ascii.eqb_refl. Qed.

Create HintDb chars.

#[local] Hint Resolve ident_start_char dec_digit_ident dec_digit_isdigit
  ident_char_nonspace ident_char_not_newline : chars.

(* ------------------------------------------------------------------ *)
(** ** Text *)

Lemma append_nil_r : forall s : string, s ++ "" = s.
Proof. induction s; simpl; congruence. Qed.

Lemma append_assoc : forall a b c : string, (a ++ b) ++ c = a ++ (b ++ c).
Proof. induction a; simpl; intros; congruence. Qed.

Lemma snoc_append : forall cur c w, snoc cur c ++ w = cur ++ String c w.
Proof. intros. unfold snoc. now rewrite append_assoc. Qed.

Lemma length_append : forall a b : string,
  String.length (a ++ b) = (String.length a + String.length b)%nat.
Proof. induction a; simpl; intros; auto. Qed.

Lemma forallb_str_append : forall p a b,
  forallb_str p (a ++ b) = forallb_str p a && forallb_str p b.
Proof.
  induction a; simpl; intros; auto.
  rewrite IHa. now rewrite andb_assoc.
Qed.

Lemma forallb_str_impl : forall (p q : ascii -> bool) s,
  (forall c, p c = true -> q c = true) ->
  forallb_str p s = true -> forallb_str q s = true.
Proof.
  induction s; simpl; intros Hpq H; auto.
  apply andb_true_iff in H as [H1 H2].
  rewrite (Hpq _ H1). simpl. auto.
Qed.

Lemma identifier_chars : forall s,
  is_identifier s = true -> nonempty s = true /\ forallb_str ident_char s = true.
Proof.
  destruct s as [|c s]; simpl; intro H; [discriminate|].
  apply andb_true_iff in H as [H1 H2].
  split; auto. now rewrite (ident_start_char _ H1).
Qed.

Lemma digits_chars : forall s,
  is_digits s = true -> nonempty s = true /\ forallb_str ident_char s = true.
Proof.
  unfold is_digits. intros s H. apply andb_true_iff in H as [H1 H2].
  split; auto. apply (forallb_str_impl dec_digit); auto with chars.
Qed.

Lemma operand_chars : forall s,
  is_operand s = true -> nonempty s = true /\ forallb_str ident_char s = true.
Proof.
  unfold is_operand. intros s H. apply orb_true_iff in H as [H|H].
  - now apply digits_chars.
  - now apply identifier_chars.
Qed.

Lemma identifier_not_isdigit : forall s, is_identifier s = true -> isdigit s = false.
Proof.
  destruct s as [|c s]; simpl; intro H; [discriminate|].
  apply andb_true_iff in H as [H1 _].
  unfold isdigit. simpl. now rewrite (ident_start_not_digit _ H1).
Qed.

(* ------------------------------------------------------------------ *)
(** ** The matcher *)

Section Matcher.

Variable p : ascii -> bool.
Variable k : string -> string -> option (list string).

(** A repetition that can take the whole of [w] and after which the rest
    of the pattern matches, takes it. *)
Lemma star_greedy : forall w cur rest r,
  forallb_str p w = true ->
  stops p rest = true ->
  k (cur ++ w) rest = Some r ->
  star p k cur (w ++ rest) = Some r.
Proof.
  induction w as [|a w IH]; intros cur rest r Hw Hs Hk.
  - rewrite append_nil_r in Hk. simpl.
    destruct rest as [|c rest']; simpl; auto.
    simpl in Hs. apply negb_true_iff in Hs. now rewrite Hs.
  - simpl in Hw. apply andb_true_iff in Hw as [Ha Hw].
    simpl. rewrite Ha.
    rewrite (IH (snoc cur a) rest r); auto.
    now rewrite snoc_append.
Qed.

(** A repetition that reaches the end of the text gives the last
    character back when the rest of the pattern needs it. *)
Lemma star_give_back : forall w cur c r,
  forallb_str p w = true ->
  p c = true ->
  k (cur ++ w ++ String c "") "" = None ->
  k (cur ++ w) (String c "") = Some r ->
  star p k cur (w ++ String c "") = Some r.
Proof.
  induction w as [|a w IH]; intros cur c r Hw Hc Hend Hk.
  - simpl in *. rewrite Hc. simpl. unfold snoc. rewrite Hend.
    now rewrite append_nil_r in Hk.
  - simpl in Hw. apply andb_true_iff in Hw as [Ha Hw].
    simpl. rewrite Ha.
    rewrite (IH (snoc cur a) c r); auto.
    + now rewrite snoc_append.
    + now rewrite snoc_append.
Qed.

(** What a successful repetition consumed. *)
Lemma star_sound : forall s cur r,
  star p k cur s = Some r ->
  exists w rest,
    s = w ++ rest /\ forallb_str p w = true /\ k (cur ++ w) rest = Some r.
Proof.
  assert (Hstop : forall s cur r, k cur s = Some r ->
            exists w rest,
              s = w ++ rest /\ forallb_str p w = true /\ k (cur ++ w) rest = Some r).
  { intros s cur r H. exists "", s. rewrite append_nil_r. repeat split; auto. }
  induction s as [|c s IH]; intros cur r H; simpl in H; auto.
  destruct (p c) eqn:Hc; auto.
  destruct (star p k (snoc cur c) s) as [r'|] eqn:Hs; auto.
  inversion H; subst r'. apply IH in Hs as (w & rest & -> & Hw & Hk).
  exists (String c w), rest. simpl. rewrite Hc, Hw.
  rewrite snoc_append in Hk. auto.
Qed.

(** A repetition succeeds whenever some split of the text does. *)
Lemma star_complete : forall w cur rest r,
  forallb_str p w = true ->
  k (cur ++ w) rest = Some r ->
  exists r', star p k cur (w ++ rest) = Some r'.
Proof.
  induction w as [|a w IH]; intros cur rest r Hw Hk.
  - rewrite append_nil_r in Hk. simpl.
    destruct rest as [|c rest']; simpl; eauto.
    destruct (p c); eauto.
    destruct (star p k (snoc cur c) rest'); eauto.
  - simpl in Hw. apply andb_true_iff in Hw as [Ha Hw].
    simpl. rewrite Ha.
    destruct (IH (snoc cur a) rest r) as [r' Hr']; auto.
    + now rewrite snoc_append.
    + rewrite Hr'. eauto.
Qed.

End Matcher.

Section Run.

Variable p : ascii -> bool.
Variable re : regex.
Variable caps : list string.

Lemma run_Lit : forall a cur s,
  run (Lit a :: re) caps cur (String a s) = run re caps (snoc cur a) s.
Proof. intros. simpl. now rewrite is_char_refl. Qed.

Lemma run_Star_greedy : forall w cur rest r,
  forallb_str p w = true ->
  stops p rest = true ->
  run re caps (cur ++ w) rest = Some r ->
  run (Star p :: re) caps cur (w ++ rest) = Some r.
Proof. intros. simpl. now apply star_greedy. Qed.

Lemma run_Plus_greedy : forall w cur rest r,
  nonempty w = true ->
  forallb_str p w = true ->
  stops p rest = true ->
  run re caps (cur ++ w) rest = Some r ->
  run (Plus p :: re) caps cur (w ++ rest) = Some r.
Proof.
  intros [|a w] cur rest r Hn Hw Hs Hk; [discriminate|].
  simpl in Hw. apply andb_true_iff in Hw as [Ha Hw].
  simpl. rewrite Ha. apply star_greedy; auto.
  now rewrite snoc_append.
Qed.

Lemma run_Plus_give_back : forall w cur c r,
  nonempty w = true ->
  forallb_str p w = true ->
  p c = true ->
  run re caps (cur ++ w ++ String c "") "" = None ->
  run re caps (cur ++ w) (String c "") = Some r ->
  run (Plus p :: re) caps cur (w ++ String c "") = Some r.
Proof.
  intros [|a w] cur c r Hn Hw Hc Hend Hk; [discriminate|].
  simpl in Hw. apply andb_true_iff in Hw as [Ha Hw].
  simpl. rewrite Ha. apply star_give_back; auto.
  - now rewrite snoc_append.
  - now rewrite snoc_append.
Qed.

Lemma run_One_inv : forall cur s r,
  run (One p :: re) caps cur s = Some r ->
  exists c s', s = String c s' /\ p c = true /\ run re caps (snoc cur c) s' = Some r.
Proof.
  intros cur [|c s'] r H; simpl in H; [discriminate|].
  destruct (p c) eqn:Hc; [|discriminate]. eauto.
Qed.

Lemma run_Star_inv : forall cur s r,
  run (Star p :: re) caps cur s = Some r ->
  exists w rest,
    s = w ++ rest /\ forallb_str p w = true /\ run re caps (cur ++ w) rest = Some r.
Proof. intros cur s r H. simpl in H. now apply star_sound in H. Qed.

Lemma run_Plus_inv : forall cur s r,
  run (Plus p :: re) caps cur s = Some r ->
  exists w rest,
    s = w ++ rest /\ nonempty w = true /\ forallb_str p w = true /\
    run re caps (cur ++ w) rest = Some r.
Proof.
  intros cur [|c s'] r H; simpl in H; [discriminate|].
  destruct (p c) eqn:Hc; [|discriminate].
  apply star_sound in H as (w & rest & -> & Hw & Hk).
  exists (String c w), rest. simpl. rewrite Hc, Hw.
  rewrite snoc_append in Hk. auto.
Qed.

Lemma run_Plus_complete : forall w cur rest r,
  nonempty w = true ->
  forallb_str p w = true ->
  run re caps (cur ++ w) rest = Some r ->
  exists r', run (Plus p :: re) caps cur (w ++ rest) = Some r'.
Proof.
  intros [|a w] cur rest r Hn Hw Hk; [discriminate|].
  simpl in Hw. apply andb_true_iff in Hw as [Ha Hw].
  simpl. rewrite Ha. apply star_complete with (r := r); auto.
  now rewrite snoc_append.
Qed.

End Run.

Lemma run_Lit_inv : forall a re caps cur s r,
  run (Lit a :: re) caps cur s = Some r ->
  exists s', s = String a s' /\ run re caps (snoc cur a) s' = Some r.
Proof.
  intros a re caps cur s r H.
  apply run_One_inv in H as (c & s' & -> & Hc & H).
  apply is_char_eq in Hc. subst c. eauto.
Qed.

Lemma run_One_ok : forall p re caps cur c s,
  p c = true ->
  run (One p :: re) caps cur (String c s) = run re caps (snoc cur c) s.
Proof. intros p re caps cur c s H. simpl. now rewrite H. Qed.

Lemma run_Open : forall re caps cur s,
  run (Open :: re) caps cur s = run re caps "" s.
Proof. reflexivity. Qed.

Lemma run_Close : forall re caps cur s,
  run (Close :: re) caps cur s = run re (caps ++ [cur]) cur s.
Proof. reflexivity. Qed.

Lemma run_nil : forall caps cur s, run [] caps cur s = Some caps.
Proof. reflexivity. Qed.

Lemma run_Lit_end : forall a re caps cur, run (Lit a :: re) caps cur "" = None.
Proof. reflexivity. Qed.

Arguments run : simpl never.
Arguments star : simpl never.

(** One step of a match on a text whose next part is known. *)
Ltac step_lit :=
  first [ rewrite run_Open | rewrite run_Close | rewrite run_Lit
        | rewrite run_One_ok by (auto with chars) | rewrite run_nil ].

(** One step backwards from a successful match. *)
Ltac inv_run H :=
  first
    [ rewrite run_Open in H
    | rewrite run_Close in H
    | let s := fresh "s" in apply run_Lit_inv in H as (s & -> & H) ].

(* ------------------------------------------------------------------ *)
(** ** The patterns of the source *)

(** A match of the key-value pattern: the line starts with an identifier,
    [ = ], a non-empty value without line feed, and a semicolon. *)
Lemma key_value_sound : forall line m,
  rmatch re_key_value line = Some m ->
  exists key value rest,
    m = [key; value] /\
    line = key ++ " = " ++ value ++ ";" ++ rest /\
    is_identifier key = true /\
    nonempty value = true /\ forallb_str not_newline value = true.
Proof.
  unfold rmatch, re_key_value. intros line m H.
  inv_run H.
  apply run_One_inv in H as (c & s1 & -> & Hc & H).
  apply run_Star_inv in H as (w & s2 & -> & Hw & H).
  do 5 inv_run H.
  apply run_Plus_inv in H as (v & s6 & -> & Hn & Hv & H).
  do 2 inv_run H.
  rewrite run_nil in H. inversion H; subst m; clear H.
  exists (String c w), v, s. simpl.
  rewrite Hc, Hw. repeat split; auto.
Qed.

(** The key-value pattern matches a line made of an identifier, [ = ], a
    value and a final semicolon, and captures them. *)
Lemma key_value_match : forall key value,
  is_identifier key = true ->
  nonempty value = true -> forallb_str not_newline value = true ->
  rmatch re_key_value (key ++ " = " ++ value ++ ";") = Some [key; value].
Proof.
  intros [|c key] value Hk Hn Hv; [discriminate|].
  simpl in Hk. apply andb_true_iff in Hk as [Hc Hk].
  unfold rmatch, re_key_value. simpl.
  do 2 step_lit.
  apply run_Star_greedy; auto.
  do 5 step_lit.
  apply run_Plus_give_back; auto.
Qed.

(** A match of the unary pattern captures an inner expression that is
    shorter than the expression. *)
Lemma unary_sound : forall expr m,
  rmatch re_unary expr = Some m ->
  exists op ws inner rest,
    m = [String op ""; inner] /\
    expr = "#(" ++ String op ws ++ inner ++ ")" ++ rest /\
    is_op op = true /\ forallb_str space ws = true /\
    nonempty inner = true.
Proof.
  unfold rmatch, re_unary. intros expr m H.
  do 3 inv_run H.
  apply run_One_inv in H as (op & s1 & -> & Hop & H).
  inv_run H.
  apply run_Star_inv in H as (ws & s2 & -> & Hws & H).
  inv_run H.
  apply run_Plus_inv in H as (v & s3 & -> & Hn & Hv & H).
  do 2 inv_run H.
  rewrite run_nil in H. inversion H; subst m; clear H.
  exists op, ws, v, s. simpl. repeat split; auto.
Qed.

Lemma unary_inner_shorter : forall expr m,
  rmatch re_unary expr = Some m ->
  (String.length (group 1 m) < String.length expr)%nat.
Proof.
  intros expr m H.
  apply unary_sound in H as (op & ws & inner & rest & -> & -> & _).
  unfold group. simpl. rewrite !length_append. simpl String.length. lia.
Qed.

(** A match of the pattern of declarations captures an identifier. *)
Lemma constant_sound : forall line m,
  rmatch re_constant line = Some m ->
  exists name value_expr,
    m = [name; value_expr] /\ is_identifier name = true /\
    nonempty value_expr = true.
Proof.
  unfold rmatch, re_constant. intros line m H.
  do 3 inv_run H.
  apply run_Plus_inv in H as (w1 & s1 & -> & _ & _ & H).
  inv_run H.
  apply run_One_inv in H as (c & s2 & -> & Hc & H).
  apply run_Star_inv in H as (w & s3 & -> & Hw & H).
  inv_run H.
  apply run_Star_inv in H as (w2 & s4 & -> & _ & H).
  do 2 inv_run H.
  apply run_Star_inv in H as (w3 & s5 & -> & _ & H).
  inv_run H.
  apply run_Plus_inv in H as (v & s6 & -> & Hn & Hv & H).
  inv_run H.
  rewrite run_nil in H. inversion H; subst m; clear H.
  exists (String c w), v. simpl. rewrite Hc, Hw. auto.
Qed.

(** The pattern of declarations on [def <name> := <text>]. *)
Lemma constant_match : forall name value_expr,
  is_identifier name = true ->
  nonempty value_expr = true ->
  forallb_str not_newline value_expr = true ->
  stops space value_expr = true ->
  rmatch re_constant ("def " ++ name ++ " := " ++ value_expr)
  = Some [name; value_expr].
Proof.
  intros [|c name] v Hk Hn Hv Hs; [discriminate|].
  simpl in Hk. apply andb_true_iff in Hk as [Hc Hk].
  unfold rmatch, re_constant. simpl.
  do 3 step_lit.
  apply (run_Plus_greedy space _ _ " "); auto.
  { unfold stops, space. rewrite (ident_char_nonspace c); auto with chars. }
  do 2 step_lit.
  apply run_Star_greedy; auto.
  step_lit.
  apply (run_Star_greedy space _ _ " "); auto.
  do 2 step_lit.
  apply (run_Star_greedy space _ _ " "); auto.
  step_lit.
  rewrite <- (append_nil_r v) at 1.
  apply run_Plus_greedy; auto.
Qed.

(** The binary pattern on [#(<op> <left> <right>)] with operands free of
    white space. *)
Lemma binary_match : forall op l r,
  is_op op = true ->
  nonempty l = true -> forallb_str nonspace_char l = true ->
  nonempty r = true -> forallb_str nonspace_char r = true ->
  rmatch re_binary ("#(" ++ String op " " ++ l ++ " " ++ r ++ ")")
  = Some [String op ""; l; r].
Proof.
  intros op l r Hop Hl Hla Hr Hra.
  unfold rmatch, re_binary. simpl.
  do 5 step_lit.
  apply (run_Star_greedy space _ _ " "); auto.
  { destruct l as [|a l]; [discriminate|]. simpl in *.
    apply andb_true_iff in Hla as [Ha _]. exact Ha. }
  step_lit.
  apply run_Plus_greedy; auto.
  step_lit.
  apply (run_Star_greedy space _ _ " "); auto.
  { destruct r as [|a r]; [discriminate|]. simpl in *.
    apply andb_true_iff in Hra as [Ha _]. exact Ha. }
  step_lit.
  apply run_Plus_give_back; auto.
Qed.

(* ------------------------------------------------------------------ *)
(** ** Integer literals *)

Lemma lstrip_with_id : forall p s, stops p s = true -> lstrip_with p s = s.
Proof.
  intros p [|c s] H; simpl in *; auto.
  apply negb_true_iff in H. now rewrite H.
Qed.

Lemma rstrip_with_id : forall p s,
  forallb_str (fun c => negb (p c)) s = true -> rstrip_with p s = s.
Proof.
  induction s as [|c s IH]; simpl; intro H; auto.
  apply andb_true_iff in H as [Hc Hs]. rewrite (IH Hs).
  apply negb_true_iff in Hc. rewrite Hc. now destruct s.
Qed.

Lemma int_body_digits : forall s prev acc,
  forallb_str dec_digit s = true ->
  (prev = true \/ nonempty s = true) ->
  int_body prev acc s = Some (digits_value acc s).
Proof.
  induction s as [|c s IH]; simpl; intros prev acc Hs Hp.
  - destruct Hp as [-> | Hp]; [reflexivity | discriminate].
  - apply andb_true_iff in Hs as [Hc Hs]. rewrite Hc. apply IH; auto.
Qed.

(** [int] on a literal of decimal digits is its value. *)
Lemma int_digits : forall v,
  is_digits v = true -> int v = OK (digits_value 0 v).
Proof.
  unfold is_digits, int. intros v H.
  apply andb_true_iff in H as [Hn Hd].
  rewrite lstrip_with_id.
  2:{ destruct v as [|c v]; simpl in *; auto.
      apply andb_true_iff in Hd as [Hc _].
      now rewrite (dec_digit_not_int_space _ Hc). }
  rewrite rstrip_with_id.
  2:{ apply (forallb_str_impl dec_digit); auto.
      intros c Hc. now rewrite (dec_digit_not_int_space _ Hc). }
  destruct v as [|c v]; [discriminate|].
  pose proof Hd as Hd'. simpl in Hd'. apply andb_true_iff in Hd' as [Hc _].
  destruct (dec_digit_not_sign _ Hc) as [-> ->].
  rewrite int_body_digits; auto.
Qed.

Lemma digits_isdigit : forall v, is_digits v = true -> isdigit v = true.
Proof.
  unfold is_digits, isdigit. intros v H.
  apply andb_true_iff in H as [-> Hd]. simpl.
  apply (forallb_str_impl dec_digit); auto with chars.
Qed.

(* ------------------------------------------------------------------ *)
(** ** The evaluator never runs out of fuel *)

Lemma eval_fuel_enough : forall fuel cs expr,
  (String.length expr < fuel)%nat ->
  exists r, eval_fuel fuel cs expr = Some r.
Proof.
  induction fuel as [|fuel IH]; intros cs expr Hlen; [lia|].
  cbn [eval_fuel].
  destruct (isdigit expr); eauto.
  destruct (startswith "chr(" expr && endswith ")" expr); eauto.
  destruct (rmatch re_binary expr); eauto.
  destruct (rmatch re_unary expr) as [m|] eqn:Hm; eauto.
  pose proof (unary_inner_shorter _ _ Hm) as Hlt.
  destruct (IH cs (group 1 m)) as [r Hr]; [lia|].
  rewrite Hr. eauto.
Qed.

Lemma eval_fuel_stable : forall fuel cs expr r,
  eval_fuel fuel cs expr = Some r ->
  forall fuel', (fuel <= fuel')%nat -> eval_fuel fuel' cs expr = Some r.
Proof.
  induction fuel as [|fuel IH]; intros cs expr r H fuel' Hle; [discriminate|].
  destruct fuel' as [|fuel']; [lia|].
  cbn [eval_fuel] in *.
  destruct (isdigit expr); auto.
  destruct (startswith "chr(" expr && endswith ")" expr); auto.
  destruct (rmatch re_binary expr); auto.
  destruct (rmatch re_unary expr) as [m|]; auto.
  destruct (eval_fuel fuel cs (group 1 m)) as [ri|] eqn:Hi; [|discriminate].
  rewrite (IH _ _ _ Hi fuel'); auto. lia.
Qed.

(** [_evaluate_expression] is the result of [eval_fuel] for any
    sufficient bound. *)
Lemma evaluate_expression_fuel : forall cs expr,
  eval_fuel (S (String.length expr)) cs expr = Some (_evaluate_expression cs expr).
Proof.
  intros cs expr. unfold _evaluate_expression.
  destruct (eval_fuel_enough (S (String.length expr)) cs expr) as [r Hr]; [lia|].
  now rewrite Hr.
Qed.

(** The equations of [_evaluate_expression], branch by branch. *)
Lemma evaluate_binary : forall cs expr m,
  isdigit expr = false ->
  startswith "chr(" expr && endswith ")" expr = false ->
  rmatch re_binary expr = Some m ->
  _evaluate_expression cs expr =
  (left_val <- _get_value_from_expression cs (group 1 m) ;;
   right_val <- _get_value_from_expression cs (group 2 m) ;;
   apply_binary (group 0 m) left_val right_val).
Proof.
  intros cs expr m Hd Hc Hm. unfold _evaluate_expression. cbn [eval_fuel].
  now rewrite Hd, Hc, Hm.
Qed.

Lemma evaluate_unary : forall cs expr m,
  isdigit expr = false ->
  startswith "chr(" expr && endswith ")" expr = false ->
  rmatch re_binary expr = None ->
  rmatch re_unary expr = Some m ->
  _evaluate_expression cs expr =
  (inner_value <- _evaluate_expression cs (group 1 m) ;;
   apply_unary (group 0 m) inner_value).
Proof.
  intros cs expr m Hd Hc Hb Hm.
  pose proof (evaluate_expression_fuel cs expr) as H. cbn [eval_fuel] in H.
  rewrite Hd, Hc, Hb, Hm in H.
  destruct (eval_fuel (String.length expr) cs (group 1 m)) as [ri|] eqn:Hi;
    [|discriminate].
  inversion H as [H']. clear H.
  pose proof (evaluate_expression_fuel cs (group 1 m)) as Hg.
  pose proof (unary_inner_shorter _ _ Hm) as Hlt.
  rewrite (eval_fuel_stable _ _ _ _ Hg (String.length expr)) in Hi by lia.
  now inversion Hi.
Qed.

Lemma evaluate_invalid : forall cs expr,
  isdigit expr = false ->
  startswith "chr(" expr && endswith ")" expr = false ->
  rmatch re_binary expr = None ->
  rmatch re_unary expr = None ->
  _evaluate_expression cs expr = Err (SyntaxError ("Invalid expression: " ++ expr)).
Proof.
  intros cs expr Hd Hc Hb Hm. unfold _evaluate_expression. cbn [eval_fuel].
  now rewrite Hd, Hc, Hb, Hm.
Qed.

Lemma evaluate_digits : forall cs v,
  is_digits v = true -> _evaluate_expression cs v = OK (VInt (digits_value 0 v)).
Proof.
  intros cs v H. unfold _evaluate_expression. cbn [eval_fuel].
  rewrite (digits_isdigit _ H), (int_digits _ H). reflexivity.
Qed.

(* ------------------------------------------------------------------ *)
(** ** Resolving operands and value tokens *)

Lemma operand_nonspace : forall s,
  is_operand s = true ->
  nonempty s = true /\ forallb_str nonspace_char s = true.
Proof.
  intros s H. apply operand_chars in H as [Hn Hc]. split; auto.
  apply (forallb_str_impl ident_char); auto.
  intros c Hi. unfold nonspace_char. now rewrite (ident_char_nonspace _ Hi).
Qed.

(** A binary expression whose operands are tokens resolves both and
    applies the operator. *)
Lemma evaluate_binary_tokens : forall cs op l r,
  is_op op = true -> is_operand l = true -> is_operand r = true ->
  _evaluate_expression cs ("#(" ++ String op " " ++ l ++ " " ++ r ++ ")") =
  (left_val <- _get_value_from_expression cs l ;;
   right_val <- _get_value_from_expression cs r ;;
   apply_binary (String op "") left_val right_val).
Proof.
  intros cs op l r Hop Hl Hr.
  apply operand_nonspace in Hl as [Hl1 Hl2].
  apply operand_nonspace in Hr as [Hr1 Hr2].
  rewrite (evaluate_binary cs _ [String op ""; l; r]); auto.
  now apply binary_match.
Qed.

Lemma get_identifier : forall cs n v,
  is_identifier n = true -> Dict.get n cs = Some v ->
  _get_value_from_expression cs n = OK v.
Proof.
  intros cs n v Hn Hg. unfold _get_value_from_expression.
  now rewrite (identifier_not_isdigit _ Hn), Hg.
Qed.

Lemma float_pattern_not_identifier : forall n,
  is_identifier n = true -> rmatch re_float n = None.
Proof.
  intros [|c n] H; [discriminate|].
  simpl in H. apply andb_true_iff in H as [Hc _].
  unfold rmatch, re_float, run. now rewrite (ident_start_not_dec _ Hc).
Qed.

Lemma identifier_not_bracketed : forall n,
  is_identifier n = true -> startswith "[[" n = false.
Proof.
  intros [|c n] H; [discriminate|].
  simpl in H. apply andb_true_iff in H as [Hc _].
  cbn [startswith]. destruct (is_char "[" c) eqn:E; [|reflexivity].
  apply is_char_eq in E. subst c. discriminate Hc.
Qed.

(** A value token that is the name of a constant is its stored value. *)
Lemma parse_value_identifier : forall cs n v,
  is_identifier n = true -> Dict.get n cs = Some v ->
  _parse_value cs n = OK v.
Proof.
  intros cs n v Hn Hg. unfold _parse_value.
  rewrite (identifier_not_isdigit _ Hn), (float_pattern_not_identifier _ Hn).
  now rewrite (identifier_not_bracketed _ Hn), Hg.
Qed.

Lemma get_set_same : forall (V : Type) k (v : V) d, Dict.get k (Dict.set k v d) = Some v.
Proof.
  induction d as [|[k' v'] d IH]; simpl.
  - now rewrite String.eqb_refl.
  - destruct (String.eqb k k') eqn:E; simpl; now rewrite ?String.eqb_refl, ?E.
Qed.

Lemma get_set_other : forall (V : Type) k k' (v : V) d,
  k' <> k -> Dict.get k' (Dict.set k v d) = Dict.get k' d.
Proof.
  intros V k k' v d Hne. apply String.eqb_neq in Hne.
  induction d as [|[k2 v2] d IH]; simpl.
  - now rewrite Hne.
  - destruct (String.eqb k k2) eqn:E; simpl.
    + apply String.eqb_eq in E. subst k2. now rewrite Hne.
    + now rewrite IH.
Qed.

Lemma digits_stop_space : forall v, is_digits v = true -> stops space v = true.
Proof.
  unfold is_digits. intros [|c v] H; [reflexivity|].
  simpl in *. apply andb_true_iff in H as [Hc _].
  unfold space. now rewrite (ident_char_nonspace c) by auto with chars.
Qed.

Lemma strip_tight : forall s,
  stops space s = true ->
  forallb_str nonspace_char s = true -> strip s = s.
Proof.
  intros s H1 H2. unfold strip.
  rewrite lstrip_with_id by exact H1.
  now apply rstrip_with_id.
Qed.

Lemma rstrip_with_last : forall p a c,
  p c = false -> rstrip_with p (a ++ String c "") = a ++ String c "".
Proof.
  intros p a c Hc. induction a as [|x a IH]; simpl.
  - now rewrite Hc.
  - rewrite IH. now destruct a.
Qed.

Lemma nonempty_last : forall p s,
  nonempty s = true -> forallb_str p s = true ->
  exists a c, s = a ++ String c "" /\ p c = true.
Proof.
  induction s as [|x s IH]; intros Hn Hp; [discriminate|].
  simpl in Hp. apply andb_true_iff in Hp as [Hx Hs].
  destruct s as [|y s].
  - exists "", x. auto.
  - destruct IH as (a & c & E & Hc); auto.
    exists (String x a), c. simpl. now rewrite <- E.
Qed.

(** A line that starts and ends with characters that are not white
    space is its own [strip]. *)
Lemma strip_edges : forall s a c,
  stops space s = true -> s = a ++ String c "" -> isspace_char c = false ->
  strip s = s.
Proof.
  intros s a c Hs -> Hc. unfold strip.
  rewrite lstrip_with_id by exact Hs.
  now apply rstrip_with_last.
Qed.

Lemma replace_newlines_id : forall s,
  forallb_str not_newline s = true -> replace_newlines s = s.
Proof.
  induction s as [|c s IH]; simpl; intro H; auto.
  apply andb_true_iff in H as [Hc Hs]. rewrite (IH Hs).
  unfold not_newline in Hc. apply negb_true_iff in Hc. now rewrite Hc.
Qed.

(** A declaration of [name] with a literal of decimal digits. *)
Lemma parse_constant_digits : forall cs n v,
  is_identifier n = true -> is_digits v = true ->
  _parse_constant cs ("def " ++ n ++ " := " ++ v)
  = OK (Dict.set n (VInt (digits_value 0 v)) cs).
Proof.
  intros cs n v Hn Hv. unfold _parse_constant.
  destruct (digits_chars _ Hv) as [Hne Hic].
  rewrite (constant_match n v); auto.
  - unfold group. simpl nth.
    rewrite replace_newlines_id, strip_tight.
    + now rewrite (evaluate_digits _ _ Hv).
    + now apply digits_stop_space.
    + apply (forallb_str_impl ident_char); auto.
      intros c Hc. unfold nonspace_char. now rewrite (ident_char_nonspace _ Hc).
    + apply (forallb_str_impl ident_char); auto with chars.
  - apply (forallb_str_impl ident_char); auto with chars.
  - now apply digits_stop_space.
Qed.

(* ------------------------------------------------------------------ *)
(** ** The expression evaluator *)

(** C1 (the code departs from the claim): the argument of [chr(...)] is
    handed to [int] without a check, so [chr(abc)] does not fail with the
    parser's SyntaxError but with the ValueError of [int]. *)
Theorem chr_argument_unchecked : forall cs,
  _evaluate_expression cs "chr(abc)" = Err ValueError /\
  is_syntax_error (_evaluate_expression cs "chr(abc)") = false /\
  parse cs "def x := chr(abc)" = Err ValueError.
Proof. intro cs. repeat split; reflexivity. Qed.

(** Where none of the four forms of the source applies, the failure is the
    SyntaxError "Invalid expression". *)
Example invalid_expression_examples : forall cs,
  _evaluate_expression cs "x" = Err (SyntaxError "Invalid expression: x") /\
  _evaluate_expression cs "#(^ 1 2)" = Err (SyntaxError "Invalid expression: #(^ 1 2)") /\
  _evaluate_expression cs "" = Err (SyntaxError "Invalid expression: ").
Proof. intro cs. repeat split; reflexivity. Qed.

(** C2 (the code departs from the claim): the binary pattern allows its
    two operands to touch, so the unary expression [#(- 12)], whose inner
    expression evaluates to 12, is read as 1 - 2. *)
Theorem unary_minus_read_as_binary : forall cs,
  _evaluate_expression cs "12" = OK (VInt 12) /\
  rmatch re_binary "#(- 12)" = Some ["-"; "1"; "2"] /\
  _evaluate_expression cs "#(- 12)" = OK (VInt (-1)) /\
  parse_text ("def x := #(- 12)" ++ String "010" "@{" ++ String "010" "k = x;"
              ++ String "010" "}")
  = OK [("dict1", [("k", VInt (-1))])].
Proof. intro cs. repeat split; reflexivity. Qed.

(** The unary forms with an inner expression of one character behave as
    written. *)
Example unary_examples : forall cs,
  _evaluate_expression cs "#(/ 2)" = OK (VFloat half) /\
  _evaluate_expression cs "#(* 5)" = OK (VInt 5) /\
  _evaluate_expression cs "#(- 5)" = OK (VInt (-5)) /\
  _evaluate_expression cs "#(+ 5)" = OK (VInt 5).
Proof. intro cs. repeat split; reflexivity. Qed.

(** C8: a declaration [def n := v] with a literal [v] of decimal digits
    stores the integer value of [v] under [n]; afterwards [n] resolves to
    that integer as a value token of a key-value pair and as an operand of a
    binary expression. *)
Theorem declared_constant_resolves : forall cs n v,
  is_identifier n = true -> is_digits v = true ->
  let z := digits_value 0 v in
  let cs' := Dict.set n (VInt z) cs in
  _parse_constant cs ("def " ++ n ++ " := " ++ v) = OK cs' /\
  (forall doc cur,
     step (mkState cs doc cur) ("def " ++ n ++ " := " ++ v)
     = OK (mkState cs' doc cur)) /\
  Dict.get n cs' = Some (VInt z) /\
  _parse_value cs' n = OK (VInt z) /\
  _get_value_from_expression cs' n = OK (VInt z) /\
  _evaluate_expression cs' ("#(+ " ++ n ++ " 0)") = OK (VInt z).
Proof.
  intros cs n v Hn Hv z cs'.
  assert (Hg : Dict.get n cs' = Some (VInt z)) by apply get_set_same.
  assert (Hp : _parse_constant cs ("def " ++ n ++ " := " ++ v) = OK cs')
    by now apply parse_constant_digits.
  repeat split; auto.
  - intros doc cur. unfold step.
    destruct (digits_chars _ Hv) as [Hne Hic].
    destruct (nonempty_last _ _ Hne Hic) as (a & c & Ev & Hc).
    rewrite (strip_edges ("def " ++ n ++ " := " ++ v) ("def " ++ n ++ " := " ++ a) c);
      auto with chars.
    + cbn [append nonempty startswith is_char Ascii.eqb Bool.eqb negb orb andb constants].
      change (String "d" (String "e" (String "f" (String " "
                (n ++ String " " (String ":" (String "=" (String " " v))))))))
        with ("def " ++ n ++ " := " ++ v).
      now rewrite Hp.
    + rewrite Ev. now rewrite !append_assoc.
  - now apply parse_value_identifier.
  - now apply get_identifier.
  - change ("#(+ " ++ n ++ " 0)") with ("#(" ++ String "+" " " ++ n ++ " " ++ "0" ++ ")").
    rewrite evaluate_binary_tokens; auto.
    + rewrite (get_identifier _ _ _ Hn Hg). simpl.
      unfold apply_binary. simpl. now rewrite Z.add_0_r.
    + unfold is_operand. now rewrite Hn, orb_true_r.
Qed.

Lemma declared_constant_resolves_witness :
  _parse_constant [] "def port := 8080" = OK [("port", VInt 8080)] /\
  (forall doc cur,
     step (mkState [] doc cur) "def port := 8080"
     = OK (mkState [("port", VInt 8080)] doc cur)) /\
  Dict.get "port" [("port", VInt 8080)] = Some (VInt 8080) /\
  _parse_value [("port", VInt 8080)] "port" = OK (VInt 8080) /\
  _get_value_from_expression [("port", VInt 8080)] "port" = OK (VInt 8080) /\
  _evaluate_expression [("port", VInt 8080)] "#(+ port 0)" = OK (VInt 8080).
Proof.
  exact (declared_constant_resolves [] "port" "8080" eq_refl eq_refl).
Defined.

(** C9: the binary form with [/] on two integer operands is true
    division: the result is the Float nearest to the quotient, never the
    integer of floor division. *)
Theorem binary_division_is_true_division : forall cs l r a b,
  is_operand l = true -> is_operand r = true ->
  _get_value_from_expression cs l = OK (VInt a) ->
  _get_value_from_expression cs r = OK (VInt b) ->
  b <> 0 ->
  is_inf (SFdiv prec emax (exact a) (exact b)) = false ->
  _evaluate_expression cs ("#(/ " ++ l ++ " " ++ r ++ ")")
  = OK (VFloat (SFdiv prec emax (exact a) (exact b))) /\
  _evaluate_expression cs ("#(/ " ++ l ++ " " ++ r ++ ")") <> OK (VInt (a / b)).
Proof.
  intros cs l r a b Hl Hr Ha Hb Hnz Hfin.
  change ("#(/ " ++ l ++ " " ++ r ++ ")")
    with ("#(" ++ String "/" " " ++ l ++ " " ++ r ++ ")").
  rewrite evaluate_binary_tokens; auto.
  rewrite Ha, Hb. simpl. unfold apply_binary. simpl. unfold int_truediv.
  apply Z.eqb_neq in Hnz. rewrite Hnz, Hfin. simpl.
  split; [reflexivity | discriminate].
Qed.

Lemma binary_division_is_true_division_witness :
  _evaluate_expression [] "#(/ 1 2)" = OK (VFloat half) /\
  _evaluate_expression [] "#(/ 1 2)" <> OK (VInt 0).
Proof.
  apply (binary_division_is_true_division [] "1" "2" 1 2); try reflexivity.
  discriminate.
Defined.

(** C10 (as stated, false): the dividend of [#(/ x 0)] may be a constant
    that holds a text, as [chr] produces; the division then fails with
    TypeError, not with ZeroDivisionError. *)
Lemma zero_divisor_text_dividend :
  _parse_constant [] "def c := chr(65)" = OK [("c", VStr [65%N])] /\
  _get_value_from_expression [("c", VStr [65%N])] "c" = OK (VStr [65%N]) /\
  _evaluate_expression [("c", VStr [65%N])] "#(/ c 0)" = Err TypeError /\
  _evaluate_expression [("c", VStr [65%N])] "#(/ c 0)" <> Err ZeroDivisionError.
Proof. repeat split; try reflexivity. discriminate. Qed.

(** C10 (amended): the division branches do not guard the divisor. For an
    operand [x] that resolves to a number, [#(/ x 0)] fails with
    ZeroDivisionError, and with TypeError when [x] resolves to a text; the
    unary [#(/ 0)] fails with ZeroDivisionError. None of these is the
    parser's SyntaxError. *)
Theorem zero_divisor_escapes : forall cs x v,
  is_operand x = true ->
  _get_value_from_expression cs x = OK v ->
  _evaluate_expression cs ("#(/ " ++ x ++ " 0)")
  = Err (match v with VStr _ => TypeError | _ => ZeroDivisionError end) /\
  is_syntax_error (_evaluate_expression cs ("#(/ " ++ x ++ " 0)")) = false /\
  _evaluate_expression cs "#(/ 0)" = Err ZeroDivisionError.
Proof.
  intros cs x v Hx Hv.
  change ("#(/ " ++ x ++ " 0)") with ("#(" ++ String "/" " " ++ x ++ " " ++ "0" ++ ")").
  rewrite evaluate_binary_tokens; auto.
  rewrite Hv. destruct v; repeat split; reflexivity.
Qed.

Lemma zero_divisor_escapes_witness :
  _evaluate_expression [("h", VFloat half)] "#(/ h 0)" = Err ZeroDivisionError /\
  is_syntax_error (_evaluate_expression [("h", VFloat half)] "#(/ h 0)") = false /\
  _evaluate_expression [("h", VFloat half)] "#(/ 0)" = Err ZeroDivisionError.
Proof.
  exact (zero_divisor_escapes [("h", VFloat half)] "h" (VFloat half) eq_refl eq_refl).
Defined.

(* ------------------------------------------------------------------ *)
(** ** Key-value lines *)

(** The pattern matches every line of [key_value_prefix] (and, by
    [key_value_sound], no other). *)
Lemma key_value_complete : forall line,
  key_value_prefix line -> exists m, rmatch re_key_value line = Some m.
Proof.
  intros line (key & value & rest & -> & Hk & Hn & Hv).
  destruct key as [|c key]; [discriminate|].
  simpl in Hk. apply andb_true_iff in Hk as [Hc Hk].
  unfold rmatch, re_key_value. simpl.
  do 2 step_lit.
  destruct (run_Plus_complete not_newline [Close; Lit ";"] [String c key]
              value "" (String ";" rest) [String c key; value] Hn Hv)
    as [m Hm].
  { now repeat step_lit. }
  exists m.
  apply run_Star_greedy; auto.
Qed.

Lemma key_value_rejected : forall cs line,
  rmatch re_key_value line = None ->
  _parse_key_value cs line = Err (SyntaxError ("Invalid key-value pair: " ++ line)).
Proof. intros cs line H. unfold _parse_key_value. now rewrite H. Qed.

Lemma key_value_not_prefix : forall line,
  ~ key_value_prefix line -> rmatch re_key_value line = None.
Proof.
  intros line Hno.
  destruct (rmatch re_key_value line) as [m|] eqn:Hm; [|reflexivity].
  exfalso. apply Hno.
  apply key_value_sound in Hm as (key & value & rest & _ & H).
  exists key, value, rest. exact H.
Qed.

(** C3 (as stated, false): text after the semicolon is not looked at; the
    line is accepted and the pair stored. *)
Lemma key_value_trailing_text_accepted :
  _parse_key_value [] "key = 3; junk" = OK ("key", VInt 3) /\
  is_syntax_error (_parse_key_value [] "key = 3; junk") = false.
Proof. split; reflexivity. Qed.

(** An identifier, followed by a character that cannot continue it, is
    determined by the text. *)
Lemma identifier_prefix_unique : forall k1 k2 r1 r2,
  forallb_str ident_char k1 = true -> forallb_str ident_char k2 = true ->
  stops ident_char r1 = true -> stops ident_char r2 = true ->
  k1 ++ r1 = k2 ++ r2 -> k1 = k2 /\ r1 = r2.
Proof.
  induction k1 as [|a k1 IH]; intros [|b k2] r1 r2 H1 H2 S1 S2 E; simpl in *.
  - auto.
  - subst r1. simpl in S1. apply andb_true_iff in H2 as [Hb _].
    rewrite Hb in S1. discriminate.
  - subst r2. simpl in S2. apply andb_true_iff in H1 as [Ha _].
    rewrite Ha in S2. discriminate.
  - inversion E; subst b.
    apply andb_true_iff in H1 as [_ H1]. apply andb_true_iff in H2 as [_ H2].
    destruct (IH k2 r1 r2) as [-> ->]; auto.
Qed.

(** What follows the identifier of a line of the key-value shape. *)
Lemma key_value_prefix_after_key : forall key tail,
  is_identifier key = true -> stops ident_char tail = true ->
  key_value_prefix (key ++ tail) ->
  exists value rest, tail = " = " ++ value ++ ";" ++ rest /\ nonempty value = true.
Proof.
  intros key tail Hk Ht (key' & value & rest & E & Hk' & Hn & _).
  apply identifier_chars in Hk as [_ Hk].
  apply identifier_chars in Hk' as [_ Hk'].
  apply identifier_prefix_unique in E as [_ ->]; auto.
  exists value, rest. auto.
Qed.

(** [==] instead of [=], and extra space before [=]: *)
Lemma double_equals_fails : forall cs key rest,
  is_identifier key = true ->
  _parse_key_value cs (key ++ " ==" ++ rest)
  = Err (SyntaxError ("Invalid key-value pair: " ++ key ++ " ==" ++ rest)).
Proof.
  intros cs key rest Hk. apply key_value_rejected.
  apply key_value_not_prefix. intro Hs.
  apply key_value_prefix_after_key in Hs as (v & r & E & _); auto.
  discriminate E.
Qed.

Lemma extra_space_before_equals_fails : forall cs key rest,
  is_identifier key = true ->
  _parse_key_value cs (key ++ "  " ++ rest)
  = Err (SyntaxError ("Invalid key-value pair: " ++ key ++ "  " ++ rest)).
Proof.
  intros cs key rest Hk. apply key_value_rejected.
  apply key_value_not_prefix. intro Hs.
  apply key_value_prefix_after_key in Hs as (v & r & E & _); auto.
  discriminate E.
Qed.

Lemma get_in_keys : forall (V : Type) k (d : Dict.dict V) v,
  Dict.get k d = Some v -> In k (Dict.keys d).
Proof.
  induction d as [|[k' v'] d IH]; simpl; intros v H; [discriminate|].
  destruct (String.eqb k k') eqn:E.
  - apply String.eqb_eq in E. auto.
  - right. eapply IH; eauto.
Qed.

Lemma wf_get_identifier : forall cs k v,
  constants_wf cs = true -> Dict.get k cs = Some v -> is_identifier k = true.
Proof.
  intros cs k v Hwf Hg. unfold constants_wf in Hwf.
  rewrite forallb_forall in Hwf. apply Hwf. eapply get_in_keys; eauto.
Qed.

(** A value that starts with white space is no value. *)
Lemma parse_value_leading_space : forall cs c value,
  constants_wf cs = true -> isspace_char c = true ->
  _parse_value cs (String c value)
  = Err (SyntaxError ("Invalid value: " ++ String c value)).
Proof.
  intros cs c value Hwf Hc. unfold _parse_value.
  assert (Hd : isdigit (String c value) = false).
  { unfold isdigit. cbn [nonempty forallb_str andb].
    replace (isdigit_char c) with false; [reflexivity|].
    revert Hc. clear. by_char c. }
  assert (Hf : rmatch re_float (String c value) = None).
  { unfold rmatch, re_float, run.
    replace (dec_digit c) with false; [reflexivity|].
    revert Hc. clear. by_char c. }
  assert (Hb : startswith "[[" (String c value) = false).
  { cbn [startswith]. replace (is_char "[" c) with false; [reflexivity|].
    revert Hc. clear. by_char c. }
  rewrite Hd, Hf, Hb. simpl.
  destruct (Dict.get (String c value) cs) as [v|] eqn:Hg; [|reflexivity].
  apply wf_get_identifier in Hg; auto.
  simpl in Hg. apply andb_true_iff in Hg as [Hs _].
  apply ident_start_char, ident_char_nonspace in Hs. congruence.
Qed.

(** A line that is not of the key-value shape fails with a SyntaxError:
    of the pattern, or of the value when it starts with white space. *)
Lemma key_value_deviation_fails : forall cs line,
  constants_wf cs = true ->
  ~ key_value_shape line ->
  is_syntax_error (_parse_key_value cs line) = true.
Proof.
  intros cs line Hwf Hno. unfold _parse_key_value.
  destruct (rmatch re_key_value line) as [m|] eqn:Hm; [|reflexivity].
  apply key_value_sound in Hm as (key & value & rest & -> & E & Hk & Hn & _).
  unfold group. cbn [nth].
  destruct value as [|c value]; [discriminate|].
  destruct (isspace_char c) eqn:Hc.
  - now rewrite parse_value_leading_space.
  - exfalso. apply Hno. exists key, (String c value), rest.
    repeat split; auto. unfold stops, space. now rewrite Hc.
Qed.

(** A line without semicolon is not of the shape. *)
Lemma no_semicolon_no_shape : forall line,
  forallb_str (fun c => negb (is_char ";" c)) line = true ->
  ~ key_value_shape line.
Proof.
  intros line H (key & value & rest & -> & _).
  rewrite !forallb_str_append in H.
  apply andb_true_iff in H as [_ H]. apply andb_true_iff in H as [_ H].
  apply andb_true_iff in H as [_ H]. discriminate H.
Qed.

(** Extra space after [=]: the line fails with a SyntaxError, of the
    pattern or of the value. *)
Lemma extra_space_after_equals_fails : forall cs key rest,
  constants_wf cs = true -> is_identifier key = true ->
  is_syntax_error (_parse_key_value cs (key ++ " =  " ++ rest)) = true.
Proof.
  intros cs key rest Hwf Hk. unfold _parse_key_value.
  destruct (rmatch re_key_value (key ++ " =  " ++ rest)) as [m|] eqn:Hm;
    [|reflexivity].
  apply key_value_sound in Hm as (key' & value & r & -> & E & Hk' & Hn & _).
  apply identifier_chars in Hk as [_ Hk].
  apply identifier_chars in Hk' as [_ Hk'].
  apply identifier_prefix_unique in E as [_ E]; auto.
  destruct value as [|c value]; [discriminate|].
  inversion E; subst c. unfold group. cbn [nth].
  now rewrite parse_value_leading_space.
Qed.

(* ------------------------------------------------------------------ *)
(** ** The state machine of [parse] *)

Lemma run_lines_app : forall a b st,
  run_lines st (a ++ b) = (st' <- run_lines st a ;; run_lines st' b).
Proof.
  induction a as [|l a IH]; intros b st; simpl; auto.
  destruct (step st l) as [st1|e]; simpl; auto.
Qed.

Lemma block_open_not_def : forall line,
  startswith "@{" line = true ->
  nonempty line = true /\ startswith "#" line = false /\
  startswith "def " line = false.
Proof.
  intros [|c line] H; [discriminate|].
  cbn [startswith] in H. apply andb_true_iff in H as [Hc _].
  apply is_char_eq in Hc. subst c. auto.
Qed.

(** C4: at most one block is open at a time ([current_dict] holds at most
    one block body), and the step of [parse] enforces it: a line that
    starts with [@{] while a block is open fails with the nested-block
    error, and with no block open a line that is not blank, not a comment,
    not a declaration and not a block-open fails as an unexpected line. *)
Theorem misplaced_line_fails : forall st raw,
  misplaced st (strip raw) = true ->
  step st raw =
  Err (SyntaxError (if startswith "@{" (strip raw)
                    then "Nested dictionaries are not allowed."
                    else "Unexpected line: " ++ strip raw)).
Proof.
  intros st raw Hm. unfold step, misplaced, in_block in *.
  destruct (startswith "@{" (strip raw)) eqn:Ho.
  - destruct (block_open_not_def _ Ho) as (Hn & Hc & Hd).
    rewrite Hn, Hc, Hd. cbn [negb orb].
    destruct (current_dict st); [reflexivity | discriminate].
  - apply andb_true_iff in Hm as [Hm Hb]. apply andb_true_iff in Hm as [Hm Hd].
    apply andb_true_iff in Hm as [Hn Hc].
    apply negb_true_iff in Hc, Hd.
    rewrite Hn, Hc, Hd. cbn [negb orb].
    destruct (current_dict st); [discriminate | reflexivity].
Qed.

Lemma misplaced_line_fails_witness :
  step (start []) "key = 1;" = Err (SyntaxError "Unexpected line: key = 1;").
Proof.
  exact (misplaced_line_fails (start []) "key = 1;" eq_refl).
Defined.

(** The same on whole inputs. *)
Example misplaced_line_examples :
  parse_text "key = 1;" = Err (SyntaxError "Unexpected line: key = 1;") /\
  parse_text "}" = Err (SyntaxError "Unexpected line: }") /\
  parse_text ("@{" ++ String "010" "a = 1;" ++ String "010" "@{")
  = Err (SyntaxError "Nested dictionaries are not allowed.") /\
  step (mkState [] [] (Some [])) "  @{ " = Err (SyntaxError "Nested dictionaries are not allowed.").
Proof. repeat split; reflexivity. Qed.

(** Inside a block, a line that does not close it leaves the document as
    it is and the block open. *)
Lemma step_in_block : forall st raw st',
  step st raw = OK st' ->
  in_block st = true -> not_closing raw = true ->
  parsed_data st' = parsed_data st /\ in_block st' = true.
Proof.
  unfold step, in_block, not_closing. intros st raw st' H Hb Hc.
  apply negb_true_iff in Hc.
  destruct (negb (nonempty (strip raw)) || startswith "#" (strip raw)).
  { inversion H; subst; auto. }
  destruct (startswith "def " (strip raw)).
  { destruct (_parse_constant (constants st) (strip raw)); simpl in H;
      inversion H; subst; simpl; auto. }
  destruct (current_dict st) as [d|] eqn:Hd; [|discriminate].
  destruct (startswith "@{" (strip raw)); [discriminate|].
  rewrite Hc in H.
  destruct (_parse_key_value (constants st) (strip raw)); simpl in H;
    inversion H; subst; simpl; auto.
Qed.

Lemma run_in_block : forall body st st',
  run_lines st body = OK st' ->
  in_block st = true -> forallb not_closing body = true ->
  parsed_data st' = parsed_data st /\ in_block st' = true.
Proof.
  induction body as [|l body IH]; simpl; intros st st' H Hb Hc.
  - inversion H; subst; auto.
  - apply andb_true_iff in Hc as [Hl Hc].
    destruct (step st l) as [st1|e] eqn:Hs; [|discriminate].
    simpl in H.
    destruct (step_in_block _ _ _ Hs Hb Hl) as [Hp Hb1].
    destruct (IH _ _ H Hb1 Hc) as [Hp' Hb']. split; congruence.
Qed.

Lemma step_block_open : forall st raw st',
  step st raw = OK st' -> startswith "@{" (strip raw) = true ->
  parsed_data st' = parsed_data st /\ in_block st' = true.
Proof.
  intros st raw st' H Ho. unfold step in H.
  destruct (block_open_not_def _ Ho) as (Hn & Hc & Hd).
  rewrite Hn, Hc, Hd, Ho in H. cbn [negb orb] in H.
  destruct (current_dict st); [discriminate|].
  inversion H; subst. auto.
Qed.

(** C5: an input that ends while a block is open is not an error for that
    reason. When the lines before the block-open give the state [st1] and
    the block-open and the lines after it are processed without error and
    without closing the block, [parse] returns the document of [st1]: the
    open block and its pairs are dropped. *)
Theorem unterminated_block_dropped : forall cs text pre opener body st1 st2,
  splitlines (strip text) = (pre ++ opener :: body)%list ->
  run_lines (start cs) pre = OK st1 ->
  startswith "@{" (strip opener) = true ->
  forallb not_closing body = true ->
  run_lines st1 (opener :: body) = OK st2 ->
  parse cs text = OK (parsed_data st1) /\
  parsed_data st2 = parsed_data st1 /\ in_block st2 = true.
Proof.
  intros cs text pre opener body st1 st2 Hl Hpre Ho Hb Hrun.
  assert (Hdoc : parsed_data st2 = parsed_data st1 /\ in_block st2 = true).
  { simpl in Hrun. destruct (step st1 opener) as [sto|e] eqn:Hs; [|discriminate].
    simpl in Hrun. destruct (step_block_open _ _ _ Hs Ho) as [Hp Hi].
    destruct (run_in_block _ _ _ Hrun Hi Hb). split; congruence. }
  split; auto.
  unfold parse, parse_state. rewrite Hl, run_lines_app, Hpre.
  cbn [bind]. rewrite Hrun. cbn [bind]. now destruct Hdoc as [-> _].
Qed.

Lemma unterminated_block_dropped_witness :
  parse [] ("@{" ++ String "010" "a = 1;" ++ String "010" "}" ++ String "010" "@{"
            ++ String "010" "key = 3;")
  = OK [("dict1", [("a", VInt 1)])] /\
  parsed_data (mkState [] [("dict1", [("a", VInt 1)])] (Some [("key", VInt 3)]))
  = [("dict1", [("a", VInt 1)])] /\
  in_block (mkState [] [("dict1", [("a", VInt 1)])] (Some [("key", VInt 3)])) = true.
Proof.
  exact (unterminated_block_dropped []
           ("@{" ++ String "010" "a = 1;" ++ String "010" "}" ++ String "010" "@{"
            ++ String "010" "key = 3;")
           ["@{"; "a = 1;"; "}"] "@{" ["key = 3;"]
           (mkState [] [("dict1", [("a", VInt 1)])] None)
           (mkState [] [("dict1", [("a", VInt 1)])] (Some [("key", VInt 3)]))
           eq_refl eq_refl eq_refl eq_refl eq_refl).
Defined.

Example unterminated_block_examples :
  parse_text ("@{" ++ String "010" "key = 3;") = OK [] /\
  parse_text "@{" = OK [].
Proof. split; reflexivity. Qed.

(* ------------------------------------------------------------------ *)
(** ** Names of blocks *)

Lemma str_of_N_inj : forall i j, str_of_N i = str_of_N j -> i = j.
Proof.
  unfold str_of_N. intros i j H.
  apply Unsigned.to_uint_inj.
  apply (f_equal NilEmpty.uint_of_string) in H.
  rewrite !NilEmpty.usu in H. congruence.
Qed.

Lemma dict_name_inj : forall i j, dict_name i = dict_name j -> i = j.
Proof.
  unfold dict_name. intros i j H. simpl in H.
  apply str_of_N_inj. congruence.
Qed.

Lemma mem_in_keys : forall (V : Type) k (d : Dict.dict V),
  Dict.mem k d = true -> In k (Dict.keys d).
Proof.
  unfold Dict.mem. intros V k d H.
  destruct (Dict.get k d) eqn:Hg; [|discriminate].
  eapply get_in_keys; eauto.
Qed.

(** Assignment to a key that is not in the dictionary appends it. *)
Lemma set_fresh : forall (V : Type) k (v : V) d,
  Dict.mem k d = false -> Dict.set k v d = (d ++ [(k, v)])%list.
Proof.
  unfold Dict.mem. induction d as [|[k' v'] d IH]; simpl; intro H; auto.
  destruct (String.eqb k k'); [discriminate|].
  now rewrite IH.
Qed.

(** A probe that fails has found every name it tried. *)
Lemma probe_none : forall fuel i doc,
  probe fuel i doc = None ->
  forall k, (k < fuel)%nat -> Dict.mem (dict_name (i + N.of_nat k)) doc = true.
Proof.
  induction fuel as [|fuel IH]; intros i doc H k Hk; [lia|].
  simpl in H.
  destruct (Dict.mem (dict_name i) doc) eqn:Hm; [|discriminate].
  destruct k as [|k].
  - now rewrite N.add_0_r.
  - replace (i + N.of_nat (S k))%N with (i + 1 + N.of_nat k)%N by lia.
    apply IH; auto. lia.
Qed.

(** A probe that succeeds returns the first free name from its start. *)
Lemma probe_some : forall fuel i doc name,
  probe fuel i doc = Some name ->
  exists j, (i <= j)%N /\ name = dict_name j /\
    Dict.mem (dict_name j) doc = false /\
    forall k, (i <= k < j)%N -> Dict.mem (dict_name k) doc = true.
Proof.
  induction fuel as [|fuel IH]; intros i doc name H; [discriminate|].
  simpl in H.
  destruct (Dict.mem (dict_name i) doc) eqn:Hm.
  - apply IH in H as (j & Hj & -> & Hfree & Hused).
    exists j. repeat split; auto; [lia|].
    intros k Hk. destruct (N.eq_dec k i) as [->|Hne]; auto.
    apply Hused. lia.
  - inversion H; subst name. exists i. repeat split; auto; [lia|].
    intros k Hk. lia.
Qed.

Lemma NoDup_map_injective : forall (A B : Type) (f : A -> B) l,
  (forall x y, f x = f y -> x = y) -> NoDup l -> NoDup (map f l).
Proof.
  intros A B f l Hinj H. induction H as [|x l Hx Hl IH]; simpl; constructor; auto.
  intro Hin. apply in_map_iff in Hin as (y & Hy & Hin).
  apply Hinj in Hy. subst y. contradiction.
Qed.

(** A document of [n] blocks cannot hold the first [n + 1] names, so
    [n + 1] probes are enough. *)
Lemma probe_enough : forall doc : document_t,
  exists name, probe (S (List.length doc)) 1%N doc = Some name.
Proof.
  intro doc.
  destruct (probe (S (List.length doc)) 1%N doc) as [name|] eqn:H; eauto.
  exfalso.
  pose proof (probe_none _ _ _ H) as Hall.
  set (names := map (fun k => dict_name (1 + N.of_nat k)) (seq 0 (S (List.length doc)))).
  assert (Hnd : NoDup names).
  { apply NoDup_map_injective; [|apply seq_NoDup].
    intros x y E. apply dict_name_inj in E. lia. }
  assert (Hincl : incl names (Dict.keys doc)).
  { intros name Hin. apply in_map_iff in Hin as (k & <- & Hk).
    apply in_seq in Hk. apply mem_in_keys. apply Hall. lia. }
  pose proof (NoDup_incl_length Hnd Hincl) as Hlen.
  unfold names, Dict.keys in Hlen.
  rewrite !length_map, length_seq in Hlen. lia.
Qed.

(** C6: a closing block is inserted under the first unused name of the
    sequence dict1, dict2, dict3, ...: the probe starts at 1, always finds a
    name, the name is not a key of the document, every earlier name of the
    sequence is, and the block is added at the end of the document under
    that name. Hence one block is named dict1, and two blocks in a row are
    named dict1 and dict2 in the order of the input. *)
Theorem block_name_first_unused :
  (forall cs doc body,
     exists i, (1 <= i)%N /\
       _generate_dict_name doc = dict_name i /\
       Dict.mem (dict_name i) doc = false /\
       (forall j, (1 <= j < i)%N -> Dict.mem (dict_name j) doc = true) /\
       step (mkState cs doc (Some body)) "}"
       = OK (mkState cs (doc ++ [(dict_name i, body)])%list None)) /\
  (forall cs body,
     step (mkState cs [] (Some body)) "}" = OK (mkState cs [("dict1", body)] None)) /\
  (forall cs b1 b2,
     step (mkState cs [("dict1", b1)] (Some b2)) "}"
     = OK (mkState cs [("dict1", b1); ("dict2", b2)] None)) /\
  parse_text ("@{" ++ String "010" "key = 3;" ++ String "010" "}")
  = OK [("dict1", [("key", VInt 3)])] /\
  parse_text ("@{" ++ String "010" "a = 1;" ++ String "010" "}" ++ String "010" "@{"
              ++ String "010" "b = 2;" ++ String "010" "}")
  = OK [("dict1", [("a", VInt 1)]); ("dict2", [("b", VInt 2)])].
Proof.
  split; [|repeat split; reflexivity].
  intros cs doc body.
  destruct (probe_enough doc) as [name Hp].
  destruct (probe_some _ _ _ _ Hp) as (i & Hi & -> & Hfree & Hused).
  assert (Hg : _generate_dict_name doc = dict_name i).
  { unfold _generate_dict_name. now rewrite Hp. }
  exists i. repeat split; auto.
  unfold step. simpl. rewrite Hg. now rewrite set_fresh.
Qed.

(* ------------------------------------------------------------------ *)
(** ** Constants are read when the pair is parsed *)

Lemma def_line_not_skipped : forall line,
  startswith "def " line = true ->
  nonempty line = true /\ startswith "#" line = false.
Proof.
  intros [|c line] H; [discriminate|].
  cbn [startswith] in H. apply andb_true_iff in H as [Hc _].
  apply is_char_eq in Hc. subst c. auto.
Qed.

(** A declaration changes one entry of the table of constants and nothing
    else. *)
Lemma step_declaration : forall st raw st',
  step st raw = OK st' -> startswith "def " (strip raw) = true ->
  parsed_data st' = parsed_data st /\
  current_dict st' = current_dict st /\
  exists name value,
    is_identifier name = true /\
    constants st' = Dict.set name value (constants st).
Proof.
  intros st raw st' H Hd. unfold step in H.
  destruct (def_line_not_skipped _ Hd) as [Hn Hc].
  rewrite Hn, Hc, Hd in H. cbn [negb orb] in H.
  unfold _parse_constant in H.
  destruct (rmatch re_constant (strip raw)) as [m|] eqn:Hm; [|discriminate].
  apply constant_sound in Hm as (name & value_expr & -> & Hid & _).
  unfold group in H. cbn [nth] in H.
  destruct (_evaluate_expression (constants st) (strip (replace_newlines value_expr)))
    as [value|e]; [|discriminate].
  simpl in H. inversion H; subst st'. simpl.
  repeat split; auto. exists name, value. auto.
Qed.

Lemma parse_key_value_constant : forall cs key n v,
  is_identifier key = true -> is_identifier n = true ->
  Dict.get n cs = Some v ->
  _parse_key_value cs (key ++ " = " ++ n ++ ";") = OK (key, v).
Proof.
  intros cs key n v Hk Hn Hg. unfold _parse_key_value.
  destruct (identifier_chars _ Hn) as [Hne Hc].
  rewrite key_value_match; auto.
  - unfold group. cbn [nth]. now rewrite (parse_value_identifier _ _ _ Hn Hg).
  - apply (forallb_str_impl ident_char); auto with chars.
Qed.

(** A constant declared, used, declared again and used again. *)
Example redeclaration_example :
  parse_text ("def a := 1" ++ String "010" "@{" ++ String "010" "k = a;"
              ++ String "010" "}" ++ String "010" "def a := 2"
              ++ String "010" "@{" ++ String "010" "k = a;" ++ String "010" "}")
  = OK [("dict1", [("k", VInt 1)]); ("dict2", [("k", VInt 2)])].
Proof. reflexivity. Qed.

(** A declaration through the whole of [parse], and its two uses. *)
Example declaration_example :
  parse_text ("def port := 8080" ++ String "010" "def twice := #(* port 2)"
              ++ String "010" "@{" ++ String "010" "p = port;"
              ++ String "010" "q = twice;" ++ String "010" "}")
  = OK [("dict1", [("p", VInt 8080); ("q", VInt 16160)])].
Proof. reflexivity. Qed.

(* ------------------------------------------------------------------ *)
(** ** The keys of the table of constants are identifiers *)

Lemma set_constants_wf : forall cs name value,
  constants_wf cs = true -> is_identifier name = true ->
  constants_wf (Dict.set name value cs) = true.
Proof.
  unfold constants_wf, Dict.keys.
  induction cs as [|[k v] cs IH]; simpl; intros name value Hwf Hid.
  - now rewrite Hid.
  - apply andb_true_iff in Hwf as [Hk Hwf].
    destruct (String.eqb name k); simpl.
    + now rewrite Hid, Hwf.
    + now rewrite Hk, IH.
Qed.

Lemma step_constants : forall st raw st',
  step st raw = OK st' ->
  startswith "def " (strip raw) = false -> constants st' = constants st.
Proof.
  intros st raw st' H Hd. unfold step in H. rewrite Hd in H.
  destruct (negb (nonempty (strip raw)) || startswith "#" (strip raw));
    [now inversion H|].
  destruct (startswith "@{" (strip raw)).
  { destruct (current_dict st); [discriminate | now inversion H]. }
  destruct (current_dict st); [|discriminate].
  destruct (startswith "}" (strip raw)); [now inversion H|].
  destruct (_parse_key_value (constants st) (strip raw)); [|discriminate].
  now inversion H.
Qed.

Lemma step_constants_wf : forall st raw st',
  step st raw = OK st' ->
  constants_wf (constants st) = true -> constants_wf (constants st') = true.
Proof.
  intros st raw st' H Hwf.
  destruct (startswith "def " (strip raw)) eqn:Hd.
  - apply step_declaration in H as (_ & _ & name & value & Hid & ->); auto.
    now apply set_constants_wf.
  - now rewrite (step_constants _ _ _ H Hd).
Qed.

Lemma run_lines_constants_wf : forall lines st st',
  run_lines st lines = OK st' ->
  constants_wf (constants st) = true -> constants_wf (constants st') = true.
Proof.
  induction lines as [|l lines IH]; simpl; intros st st' H Hwf.
  - now inversion H; subst.
  - destruct (step st l) as [st1|e] eqn:Hs; [|discriminate].
    simpl in H. eapply IH; eauto. eapply step_constants_wf; eauto.
Qed.

(** Every table of constants that [parse] builds from an empty one has
    identifiers as keys. *)
Lemma parse_constants_wf : forall text st,
  parse_state [] text = OK st -> constants_wf (constants st) = true.
Proof.
  intros text st H. unfold parse_state in H.
  eapply run_lines_constants_wf; eauto.
Qed.

(** The table of the unary operators, as the unary branch applies it. *)
Lemma unary_operator_table : forall x,
  apply_unary "+" x = OK x /\ apply_unary "-" x = neg x /\
  apply_unary "*" x = OK x /\ apply_unary "/" x = truediv (VInt 1) x.
Proof. intro x. repeat split; reflexivity. Qed.

(* ------------------------------------------------------------------ *)
(** ** More on the evaluator *)

Lemma startswith_append : forall p s, startswith p (p ++ s) = true.
Proof.
  induction p as [|a p IH]; intro s; simpl; auto.
  now rewrite is_char_refl, IH.
Qed.

(** A match of the binary pattern captures an operator and two words. *)
Lemma binary_sound : forall expr m,
  rmatch re_binary expr = Some m ->
  exists op l r,
    m = [String op ""; l; r] /\ is_op op = true /\
    is_word l = true /\ is_word r = true.
Proof.
  unfold rmatch, re_binary. intros expr m H.
  do 3 inv_run H.
  apply run_One_inv in H as (op & s1 & -> & Hop & H).
  inv_run H.
  apply run_Star_inv in H as (ws & s2 & -> & _ & H).
  inv_run H.
  apply run_Plus_inv in H as (l & s3 & -> & Hl & Hla & H).
  inv_run H.
  apply run_Star_inv in H as (ws2 & s4 & -> & _ & H).
  inv_run H.
  apply run_Plus_inv in H as (r & s5 & -> & Hr & Hra & H).
  do 2 inv_run H.
  rewrite run_nil in H. inversion H; subst m; clear H.
  exists op, l, r. unfold is_word. rewrite Hl, Hla, Hr, Hra. auto.
Qed.

Lemma is_op_cases : forall c,
  is_op c = true -> c = "-"%char \/ c = "+"%char \/ c = "*"%char \/ c = "/"%char.
Proof.
  unfold is_op. intros c H.
  repeat (apply orb_true_iff in H as [H|H]); apply is_char_eq in H; auto.
Qed.

(** [int] fails with ValueError only. *)
Lemma int_errors : forall s, (exists z, int s = OK z) \/ int s = Err ValueError.
Proof.
  intro s. unfold int.
  destruct (rstrip_with int_space (lstrip_with int_space s)) as [|c s']; auto.
  destruct (is_char "-" c); [destruct (int_body false 0 s'); eauto|].
  destruct (is_char "+" c); [destruct (int_body false 0 s'); eauto|].
  destruct (int_body false 0 (String c s')); eauto.
Qed.

Lemma float_op_no_syntax_error : forall op l r,
  (forall x y, is_syntax_error (op x y) = false) ->
  is_syntax_error (float_op op l r) = false.
Proof.
  intros op l r Hop. unfold float_op, to_float, float_of_int.
  destruct l as [a|x|s], r as [b|y|t]; simpl; auto;
    repeat match goal with
           | |- context [is_inf ?f] => destruct (is_inf f); simpl; auto
           end;
    match goal with
    | |- context [op ?x ?y] =>
        specialize (Hop x y); destruct (op x y) as [f|[]]; simpl in *; auto
    end.
Qed.

(** The arithmetic of the interpreter never raises the parser's error. *)
Lemma apply_binary_no_syntax_error : forall op l r,
  is_op op = true ->
  is_syntax_error (apply_binary (String op "") l r) = false.
Proof.
  intros op l r Hop.
  destruct (is_op_cases _ Hop) as [-> | [-> | [-> | ->]]];
    unfold apply_binary; cbn [String.eqb Ascii.eqb Bool.eqb];
    unfold add, sub, mul, truediv, int_truediv.
  - destruct l, r; simpl; auto; apply float_op_no_syntax_error; auto.
  - destruct l, r; simpl; auto; apply float_op_no_syntax_error; auto.
  - destruct l, r; simpl; auto; apply float_op_no_syntax_error; auto.
  - destruct l as [a|x|s], r as [b|y|t]; simpl; auto;
      try (apply float_op_no_syntax_error; intros; unfold float_truediv;
           now destruct (is_zero _)).
    destruct (b =? 0); simpl; auto.
    destruct (is_inf _); simpl; auto.
Qed.

Lemma apply_unary_no_syntax_error : forall op v,
  is_op op = true ->
  is_syntax_error (apply_unary (String op "") v) = false.
Proof.
  intros op v Hop.
  destruct (is_op_cases _ Hop) as [-> | [-> | [-> | ->]]];
    unfold apply_unary; cbn [String.eqb Ascii.eqb Bool.eqb]; auto.
  - destruct v; reflexivity.
  - unfold truediv, int_truediv. destruct v as [b|y|t]; simpl; auto.
    + destruct (b =? 0); simpl; auto. destruct (is_inf _); simpl; auto.
    + apply float_op_no_syntax_error; intros; unfold float_truediv;
        now destruct (is_zero _).
Qed.

Lemma get_value_messages : forall cs value msg,
  _get_value_from_expression cs value = Err (SyntaxError msg) ->
  evaluator_message msg = true.
Proof.
  unfold _get_value_from_expression. intros cs value msg H.
  destruct (isdigit value).
  - destruct (int_errors value) as [[z Hz] | Hz]; rewrite Hz in H; discriminate.
  - destruct (Dict.get value cs); [discriminate|].
    inversion H. unfold evaluator_message. apply orb_true_iff. right.
    apply (startswith_append "Unknown variable or value: " value).
Qed.

Lemma eval_fuel_messages : forall fuel cs expr msg,
  eval_fuel fuel cs expr = Some (Err (SyntaxError msg)) ->
  evaluator_message msg = true.
Proof.
  induction fuel as [|fuel IH]; intros cs expr msg H; [discriminate|].
  cbn [eval_fuel] in H.
  destruct (isdigit expr).
  { destruct (int_errors expr) as [[z Hz] | Hz]; rewrite Hz in H; discriminate. }
  destruct (startswith "chr(" expr && endswith ")" expr).
  { destruct (int_errors (slice 4 1 expr)) as [[z Hz] | Hz]; rewrite Hz in H;
      [|discriminate].
    simpl in H. unfold chr in H.
    destruct ((z <? - 2 ^ 31) || (2 ^ 31 <=? z)); [discriminate|].
    destruct ((z <? 0) || (1114112 <=? z)); discriminate. }
  destruct (rmatch re_binary expr) as [m|] eqn:Hb.
  { apply binary_sound in Hb as (op & l & r & -> & Hop & _).
    unfold group in H. cbn [nth] in H. inversion H as [H']. clear H.
    destruct (_get_value_from_expression cs l) as [lv|e] eqn:Hl.
    2:{ simpl in H'. inversion H'; subst e. eapply get_value_messages; eauto. }
    destruct (_get_value_from_expression cs r) as [rv|e] eqn:Hr.
    2:{ simpl in H'. inversion H'; subst e. eapply get_value_messages; eauto. }
    simpl in H'. pose proof (apply_binary_no_syntax_error op lv rv Hop) as Hn.
    rewrite H' in Hn. discriminate. }
  destruct (rmatch re_unary expr) as [m|] eqn:Hu.
  { apply unary_sound in Hu as (op & ws & inner & rest & -> & _ & Hop & _).
    unfold group in H. cbn [nth] in H.
    destruct (eval_fuel fuel cs inner) as [[v|e]|] eqn:Hi; [| |discriminate].
    - simpl in H. inversion H as [H'].
      pose proof (apply_unary_no_syntax_error op v Hop) as Hn.
      rewrite H' in Hn. discriminate.
    - simpl in H. inversion H; subst e. eapply IH; eauto. }
  inversion H. unfold evaluator_message. apply orb_true_iff. left.
  apply (startswith_append "Invalid expression: " expr).
Qed.

(** X1: whatever the expression, the only SyntaxErrors of the evaluator are
    "Invalid expression" and "Unknown variable or value"; the two
    "Unsupported operation" branches are never taken, because both patterns
    admit the four operators only. *)
Theorem evaluator_syntax_errors : forall cs expr msg,
  _evaluate_expression cs expr = Err (SyntaxError msg) ->
  evaluator_message msg = true.
Proof.
  intros cs expr msg H.
  apply (eval_fuel_messages (S (String.length expr)) cs expr).
  now rewrite evaluate_expression_fuel, H.
Qed.

Lemma evaluator_syntax_errors_witness :
  evaluator_message "Unknown variable or value: #(-" = true.
Proof.
  exact (evaluator_syntax_errors [] "#(- #(- 5))" _ eq_refl).
Defined.

Lemma word_parts : forall s,
  is_word s = true -> nonempty s = true /\ forallb_str nonspace_char s = true.
Proof. unfold is_word. intros s H. now apply andb_true_iff in H. Qed.

(** A binary expression whose operands are words resolves both, left
    first, and applies the operator. *)
Lemma evaluate_binary_words : forall cs op l r,
  is_op op = true -> is_word l = true -> is_word r = true ->
  _evaluate_expression cs ("#(" ++ String op " " ++ l ++ " " ++ r ++ ")") =
  (left_val <- _get_value_from_expression cs l ;;
   right_val <- _get_value_from_expression cs r ;;
   apply_binary (String op "") left_val right_val).
Proof.
  intros cs op l r Hop Hl Hr.
  apply word_parts in Hl as [Hl1 Hl2]. apply word_parts in Hr as [Hr1 Hr2].
  rewrite (evaluate_binary cs _ [String op ""; l; r]); auto.
  now apply binary_match.
Qed.

(** X2: in a binary expression an operand that is neither a literal of
    digits nor a known constant is an error that names it; the left
    operand is resolved first, whatever the right one is. *)
Theorem unknown_operand_fails : forall cs op l r,
  is_op op = true -> is_word l = true -> is_word r = true ->
  isdigit l = false -> Dict.get l cs = None ->
  _evaluate_expression cs ("#(" ++ String op " " ++ l ++ " " ++ r ++ ")")
  = Err (SyntaxError ("Unknown variable or value: " ++ l)).
Proof.
  intros cs op l r Hop Hl Hr Hd Hg.
  rewrite evaluate_binary_words; auto.
  unfold _get_value_from_expression at 1. now rewrite Hd, Hg.
Qed.

Lemma unknown_operand_fails_witness :
  _evaluate_expression [("a", VInt 1)] "#(* 1.5 b)"
  = Err (SyntaxError "Unknown variable or value: 1.5").
Proof.
  exact (unknown_operand_fails [("a", VInt 1)] "*" "1.5" "b"
           eq_refl eq_refl eq_refl eq_refl eq_refl).
Defined.

(** X3: on two operands that resolve to integers the binary forms with
    [+], [-] and [*] are the exact sum, difference and product. *)
Theorem binary_integer_arithmetic : forall cs l r a b,
  is_operand l = true -> is_operand r = true ->
  _get_value_from_expression cs l = OK (VInt a) ->
  _get_value_from_expression cs r = OK (VInt b) ->
  _evaluate_expression cs ("#(+ " ++ l ++ " " ++ r ++ ")") = OK (VInt (a + b)) /\
  _evaluate_expression cs ("#(- " ++ l ++ " " ++ r ++ ")") = OK (VInt (a - b)) /\
  _evaluate_expression cs ("#(* " ++ l ++ " " ++ r ++ ")") = OK (VInt (a * b)).
Proof.
  intros cs l r a b Hl Hr Ha Hb.
  change ("#(+ " ++ l ++ " " ++ r ++ ")")
    with ("#(" ++ String "+" " " ++ l ++ " " ++ r ++ ")").
  change ("#(- " ++ l ++ " " ++ r ++ ")")
    with ("#(" ++ String "-" " " ++ l ++ " " ++ r ++ ")").
  change ("#(* " ++ l ++ " " ++ r ++ ")")
    with ("#(" ++ String "*" " " ++ l ++ " " ++ r ++ ")").
  rewrite !evaluate_binary_tokens; auto.
  rewrite Ha, Hb. repeat split; reflexivity.
Qed.

Lemma binary_integer_arithmetic_witness :
  _evaluate_expression [("n", VInt 7)] "#(+ n 35)" = OK (VInt 42) /\
  _evaluate_expression [("n", VInt 7)] "#(- n 35)" = OK (VInt (-28)) /\
  _evaluate_expression [("n", VInt 7)] "#(* n 35)" = OK (VInt 245).
Proof.
  exact (binary_integer_arithmetic [("n", VInt 7)] "n" "35" 7 35
           eq_refl eq_refl eq_refl eq_refl).
Defined.

Section GiveBackTwo.

Variable p : ascii -> bool.
Variable k : string -> string -> option (list string).

(** A repetition that reaches the end of the text gives two characters
    back when the rest of the pattern needs them. *)
Lemma star_give_back_two : forall w cur c1 c2 r,
  forallb_str p w = true -> p c1 = true -> p c2 = true ->
  k (cur ++ w ++ String c1 (String c2 "")) "" = None ->
  k (cur ++ w ++ String c1 "") (String c2 "") = None ->
  k (cur ++ w) (String c1 (String c2 "")) = Some r ->
  star p k cur (w ++ String c1 (String c2 "")) = Some r.
Proof.
  induction w as [|a w IH]; intros cur c1 c2 r Hw H1 H2 Hend Hone Hk.
  - cbn [append]. unfold star. rewrite H1, H2. fold star.
    unfold snoc. rewrite append_assoc. cbn [append] in *.
    rewrite Hend, Hone. now rewrite append_nil_r in Hk.
  - simpl in Hw. apply andb_true_iff in Hw as [Ha Hw].
    cbn [append]. unfold star. rewrite Ha. fold star.
    rewrite (IH (snoc cur a) c1 c2 r); auto; now rewrite snoc_append.
Qed.

End GiveBackTwo.

Lemma run_Plus_step : forall p re caps cur c s,
  p c = true ->
  run (Plus p :: re) caps cur (String c s) = star p (run re caps) (snoc cur c) s.
Proof. intros p re caps cur c s H. unfold run; fold run. now rewrite H. Qed.

(** The binary pattern on [#(<op> <word>)]: the word is split before its
    last character. *)
Lemma binary_splits_word : forall op w c,
  is_op op = true -> is_word w = true -> nonspace_char c = true ->
  rmatch re_binary ("#(" ++ String op " " ++ w ++ String c ")")
  = Some [String op ""; w; String c ""].
Proof.
  intros op w c Hop Hw Hc. apply word_parts in Hw as [Hn Hw].
  destruct w as [|a w]; [discriminate|].
  simpl in Hw. apply andb_true_iff in Hw as [Ha Hw].
  assert (Hsp : space c = false).
  { unfold nonspace_char in Hc. now apply negb_true_iff in Hc. }
  unfold rmatch, re_binary. simpl.
  do 5 step_lit.
  apply (run_Star_greedy space _ _ " "); auto.
  step_lit.
  rewrite run_Plus_step by exact Ha.
  change (String c ")") with (String c (String ")" "")).
  apply star_give_back_two; auto.
  rewrite run_Close.
  apply (run_Star_greedy space _ _ ""); auto;
    try (unfold stops; now rewrite Hsp).
  step_lit.
  apply (run_Plus_give_back nonspace_char _ _ (String c "")); auto.
  simpl. now rewrite Hc.
Qed.

(** X4: an expression [#(<op> <word>)] whose word has two characters or
    more is taken by the binary branch, which splits the word before its
    last character; the unary branch is not reached. *)
Theorem unary_word_taken_as_binary : forall cs op w c,
  is_op op = true -> is_word w = true -> nonspace_char c = true ->
  rmatch re_binary ("#(" ++ String op " " ++ w ++ String c ")")
  = Some [String op ""; w; String c ""] /\
  _evaluate_expression cs ("#(" ++ String op " " ++ w ++ String c ")") =
  (left_val <- _get_value_from_expression cs w ;;
   right_val <- _get_value_from_expression cs (String c "") ;;
   apply_binary (String op "") left_val right_val).
Proof.
  intros cs op w c Hop Hw Hc.
  pose proof (binary_splits_word op w c Hop Hw Hc) as Hm.
  split; auto.
  now rewrite (evaluate_binary cs ("#(" ++ String op " " ++ w ++ String c ")")
                 [String op ""; w; String c ""] eq_refl eq_refl Hm).
Qed.

Lemma unary_word_taken_as_binary_witness :
  rmatch re_binary "#(* 305)" = Some ["*"; "30"; "5"] /\
  _evaluate_expression [] "#(* 305)" = OK (VInt 150).
Proof.
  exact (unary_word_taken_as_binary [] "*" "30" "5" eq_refl eq_refl eq_refl).
Defined.

(** A match of the binary pattern, with the text it matched. *)
Lemma binary_sound_text : forall expr m,
  rmatch re_binary expr = Some m ->
  exists op ws l ws' r rest,
    expr = "#(" ++ String op ws ++ l ++ ws' ++ r ++ ")" ++ rest /\
    forallb_str space ws = true /\ is_word l = true /\ is_word r = true.
Proof.
  unfold rmatch, re_binary. intros expr m H.
  do 3 inv_run H.
  apply run_One_inv in H as (op & s1 & -> & Hop & H).
  inv_run H.
  apply run_Star_inv in H as (ws & s2 & -> & Hws & H).
  inv_run H.
  apply run_Plus_inv in H as (l & s3 & -> & Hl & Hla & H).
  inv_run H.
  apply run_Star_inv in H as (ws2 & s4 & -> & _ & H).
  inv_run H.
  apply run_Plus_inv in H as (r & s5 & -> & Hr & Hra & H).
  do 2 inv_run H.
  exists op, ws, l, ws2, r, s. unfold is_word.
  rewrite Hl, Hla, Hr, Hra. auto.
Qed.

(** The binary pattern does not match [#(<op> <c>)] with one character. *)
Lemma binary_rejects_single : forall op c,
  nonspace_char c = true ->
  rmatch re_binary ("#(" ++ String op (String " " (String c ")"))) = None.
Proof.
  intros op c Hc.
  destruct (rmatch re_binary ("#(" ++ String op (String " " (String c ")"))))
    as [m|] eqn:Hm; [|reflexivity].
  exfalso.
  apply binary_sound_text in Hm as (op' & ws & l & ws' & r & rest & E & Hws & Hl & Hr).
  apply word_parts in Hl as [Hl1 Hl2]. apply word_parts in Hr as [Hr1 Hr2].
  simpl in E. inversion E as [[Eop E']]. clear E.
  assert (Hlen : String.length (String " " (String c ")"))
                 = String.length (ws ++ l ++ ws' ++ r ++ String ")" rest))
    by now rewrite E'.
  rewrite !length_append in Hlen. simpl in Hlen.
  destruct l as [|a l]; [discriminate|]. destruct r as [|b r]; [discriminate|].
  simpl in Hlen.
  destruct ws as [|x ws]; [|simpl in Hlen; lia].
  simpl in E'. inversion E'; subst a.
  simpl in Hl2. discriminate Hl2.
Qed.

Lemma unary_single_match : forall op c,
  is_op op = true -> nonspace_char c = true ->
  rmatch re_unary ("#(" ++ String op (String " " (String c ")")))
  = Some [String op ""; String c ""].
Proof.
  intros op c Hop Hc.
  assert (Hsp : space c = false).
  { unfold nonspace_char in Hc. now apply negb_true_iff in Hc. }
  assert (Hnl : not_newline c = true).
  { revert Hc. clear. by_char c. }
  unfold rmatch, re_unary. simpl.
  do 5 step_lit.
  apply (run_Star_greedy space _ _ " "); auto;
    try (unfold stops; now rewrite Hsp).
  step_lit.
  apply (run_Plus_give_back not_newline _ _ (String c "")); auto.
  simpl. now rewrite Hnl.
Qed.

Lemma evaluate_digit : forall cs d,
  dec_digit d = true ->
  _evaluate_expression cs (String d "") = OK (VInt (digit_value d)).
Proof.
  intros cs d Hd.
  rewrite (evaluate_digits cs (String d "")).
  - reflexivity.
  - unfold is_digits. simpl. now rewrite Hd.
Qed.

(** X5: the unary form on one decimal digit [d] reaches the unary branch
    and gives [d] for [+] and [*], [-d] for [-], and the Float [1/d] for
    [/] (ZeroDivisionError when [d] is 0). *)
Theorem unary_on_digit : forall cs d,
  dec_digit d = true ->
  let n := digit_value d in
  _evaluate_expression cs ("#(+ " ++ String d ")") = OK (VInt n) /\
  _evaluate_expression cs ("#(- " ++ String d ")") = OK (VInt (- n)) /\
  _evaluate_expression cs ("#(* " ++ String d ")") = OK (VInt n) /\
  _evaluate_expression cs ("#(/ " ++ String d ")")
  = (if n =? 0 then Err ZeroDivisionError
     else OK (VFloat (SFdiv prec emax (exact 1) (exact n)))).
Proof.
  intros cs d Hd n.
  assert (Hc : nonspace_char d = true).
  { unfold nonspace_char. now rewrite (ident_char_nonspace d) by auto with chars. }
  assert (Hu : forall op, is_op op = true ->
            _evaluate_expression cs ("#(" ++ String op (String " " (String d ")")))
            = apply_unary (String op "") (VInt n)).
  { intros op Hop.
    rewrite (evaluate_unary cs ("#(" ++ String op (String " " (String d ")")))
               [String op ""; String d ""] eq_refl eq_refl
               (binary_rejects_single op d Hc) (unary_single_match op d Hop Hc)).
    unfold group. cbn [nth]. now rewrite (evaluate_digit cs d Hd). }
  repeat split.
  - exact (Hu "+"%char eq_refl).
  - exact (Hu "-"%char eq_refl).
  - exact (Hu "*"%char eq_refl).
  - change ("#(/ " ++ String d ")") with ("#(" ++ String "/" (String " " (String d ")"))).
    rewrite (Hu "/"%char eq_refl).
    unfold apply_unary, truediv, int_truediv. cbn [String.eqb Ascii.eqb Bool.eqb].
    destruct (n =? 0) eqn:Hz; [reflexivity|].
    replace (is_inf (SFdiv prec emax (exact 1) (exact n))) with false; [reflexivity|].
    subst n. revert Hd Hz. clear.
    destruct d as [[] [] [] [] [] [] [] []]; vm_compute; intros; congruence.
Qed.

Lemma unary_on_digit_witness :
  _evaluate_expression [] "#(+ 4)" = OK (VInt 4) /\
  _evaluate_expression [] "#(- 4)" = OK (VInt (-4)) /\
  _evaluate_expression [] "#(* 4)" = OK (VInt 4) /\
  _evaluate_expression [] "#(/ 4)"
  = OK (VFloat (S754_finite false 4503599627370496 (-54))).
Proof.
  exact (unary_on_digit [] "4" eq_refl).
Defined.

(* ------------------------------------------------------------------ *)
(** ** Slices and ends of texts *)

Lemma rev_str_acc : forall s acc, rev_str acc s = rev_str "" s ++ acc.
Proof.
  induction s as [|c s IH]; intro acc; simpl; auto.
  rewrite IH, (IH (String c "")). now rewrite append_assoc.
Qed.

Lemma rev_str_append : forall a b,
  rev_str "" (a ++ b) = rev_str "" b ++ rev_str "" a.
Proof.
  induction a as [|c a IH]; intro b; simpl.
  - now rewrite append_nil_r.
  - rewrite rev_str_acc, IH, (rev_str_acc a (String c "")).
    now rewrite append_assoc.
Qed.

Lemma endswith_append : forall p s, endswith p (s ++ p) = true.
Proof.
  intros p s. unfold endswith. rewrite rev_str_append. apply startswith_append.
Qed.

Lemma substring_whole : forall t b, String.substring 0 (String.length t) (t ++ b) = t.
Proof.
  induction t as [|c t IH]; intro b; simpl.
  - now destruct b.
  - now rewrite IH.
Qed.

Lemma substring_skip : forall a n s,
  String.substring (String.length a) n (a ++ s) = String.substring 0 n s.
Proof. induction a as [|c a IH]; intros n s; simpl; auto. Qed.

(** [(a ++ t ++ b)[len(a):-len(b)]] is [t]. *)
Lemma slice_middle : forall a t b,
  slice (String.length a) (String.length b) (a ++ t ++ b) = t.
Proof.
  intros a t b. unfold slice.
  rewrite !length_append.
  replace (String.length a + (String.length t + String.length b)
           - String.length b - String.length a)%nat
    with (String.length t) by lia.
  rewrite substring_skip. apply substring_whole.
Qed.

Lemma digits_value_nonneg : forall s acc,
  forallb_str dec_digit s = true -> 0 <= acc -> 0 <= digits_value acc s.
Proof.
  induction s as [|c s IH]; cbn [digits_value forallb_str]; intros acc Hs Hacc; auto.
  apply andb_true_iff in Hs as [Hc Hs]. apply IH; auto.
  assert (48 <= Z.of_N (code c)).
  { unfold dec_digit, between in Hc. apply andb_true_iff in Hc as [Hlo _].
    apply N.leb_le in Hlo. lia. }
  lia.
Qed.

(** X6: [chr(<digits>)] is the text of one character with that code
    point when the number is below 0x110000; a larger number fails with
    ValueError, and with OverflowError from 2^31 on. The [chr] form is
    tried before the operator forms and does not look at the constants. *)
Theorem chr_of_digits : forall cs d,
  is_digits d = true ->
  let z := digits_value 0 d in
  _evaluate_expression cs ("chr(" ++ d ++ ")") =
  (if z <? 1114112 then OK (VStr [Z.to_N z])
   else if z <? 2 ^ 31 then Err ValueError
   else Err OverflowError).
Proof.
  intros cs d Hd z. unfold _evaluate_expression. cbn [eval_fuel].
  replace (isdigit ("chr(" ++ d ++ ")")) with false by reflexivity.
  rewrite (startswith_append "chr(").
  replace ("chr(" ++ d ++ ")") with (("chr(" ++ d) ++ ")")
    by now rewrite append_assoc.
  rewrite endswith_append. cbn [andb].
  replace (("chr(" ++ d) ++ ")") with ("chr(" ++ d ++ ")")
    by now rewrite append_assoc.
  rewrite (slice_middle "chr(" d ")" : slice 4 1 ("chr(" ++ d ++ ")") = d).
  rewrite (int_digits _ Hd). cbn [bind].
  fold z. unfold chr.
  assert (Hz : 0 <= z).
  { apply digits_value_nonneg; [|lia].
    unfold is_digits in Hd. now apply andb_true_iff in Hd. }
  destruct (z <? 1114112) eqn:H1, (z <? 2 ^ 31) eqn:H2;
    repeat match goal with
           | H : (_ <? _) = true |- _ => apply Z.ltb_lt in H
           | H : (_ <? _) = false |- _ => apply Z.ltb_ge in H
           end.
  - replace ((z <? - 2 ^ 31) || (2 ^ 31 <=? z)) with false
      by (symmetry; apply orb_false_iff; split; [apply Z.ltb_ge | apply Z.leb_gt]; lia).
    replace ((z <? 0) || (1114112 <=? z)) with false
      by (symmetry; apply orb_false_iff; split; [apply Z.ltb_ge | apply Z.leb_gt]; lia).
    reflexivity.
  - lia.
  - replace ((z <? - 2 ^ 31) || (2 ^ 31 <=? z)) with false
      by (symmetry; apply orb_false_iff; split; [apply Z.ltb_ge | apply Z.leb_gt]; lia).
    replace ((z <? 0) || (1114112 <=? z)) with true
      by (symmetry; apply orb_true_iff; right; apply Z.leb_le; lia).
    reflexivity.
  - replace ((z <? - 2 ^ 31) || (2 ^ 31 <=? z)) with true
      by (symmetry; apply orb_true_iff; right; apply Z.leb_le; lia).
    reflexivity.
Qed.

Lemma chr_of_digits_witness :
  _evaluate_expression [] "chr(65)" = OK (VStr [65%N]).
Proof.
  exact (chr_of_digits [] "65" eq_refl).
Defined.

(* ------------------------------------------------------------------ *)
(** ** Digits that are no decimal digits *)

Lemma isdigit_char_not_int_space : forall c, isdigit_char c = true -> int_space c = false.
Proof. intro c. by_char c. Qed.

Lemma isdigit_char_not_sign :
  forall c, isdigit_char c = true -> is_char "-" c = false /\ is_char "+" c = false.
Proof. intro c. by_char c; split; reflexivity. Qed.

Lemma isdigit_char_not_underscore :
  forall c, isdigit_char c = true -> is_char "_" c = false.
Proof. intro c. by_char c. Qed.

Lemma int_body_superscript : forall s prev acc,
  forallb_str isdigit_char s = true -> forallb_str dec_digit s = false ->
  int_body prev acc s = None.
Proof.
  induction s as [|c s IH]; cbn [int_body forallb_str]; intros prev acc Hs Hd;
    [discriminate|].
  apply andb_true_iff in Hs as [Hc Hs].
  destruct (dec_digit c) eqn:Hdc.
  - apply IH; auto.
  - now rewrite (isdigit_char_not_underscore _ Hc).
Qed.

(** [int] on a text that [isdigit] accepts but that holds a superscript
    digit. *)
Lemma int_superscript : forall s,
  isdigit s = true -> is_digits s = false -> int s = Err ValueError.
Proof.
  unfold isdigit, is_digits, int. intros s H Hn.
  apply andb_true_iff in H as [Hne Hs]. rewrite Hne in Hn. cbn [andb] in Hn.
  rewrite lstrip_with_id.
  2:{ destruct s as [|c s]; auto. simpl in *.
      apply andb_true_iff in Hs as [Hc _].
      now rewrite (isdigit_char_not_int_space _ Hc). }
  rewrite rstrip_with_id.
  2:{ apply (forallb_str_impl isdigit_char); auto.
      intros c Hc. now rewrite (isdigit_char_not_int_space _ Hc). }
  destruct s as [|c s]; [discriminate|].
  pose proof Hs as Hs'. cbn [forallb_str] in Hs'. apply andb_true_iff in Hs' as [Hc _].
  destruct (isdigit_char_not_sign _ Hc) as [-> ->].
  now rewrite int_body_superscript.
Qed.

(** X7: the guard [isdigit] also accepts the superscript digits, which
    [int] refuses: a token of digits that holds one passes the guard in the
    evaluator, in the resolution of operands and in the value parser, and
    each of them fails with ValueError instead of the parser's SyntaxError. *)
Theorem superscript_digit_escapes : forall cs s,
  isdigit s = true -> is_digits s = false ->
  _evaluate_expression cs s = Err ValueError /\
  _get_value_from_expression cs s = Err ValueError /\
  _parse_value cs s = Err ValueError.
Proof.
  intros cs s H Hn. pose proof (int_superscript s H Hn) as Hi.
  unfold _evaluate_expression, _get_value_from_expression, _parse_value.
  cbn [eval_fuel]. rewrite H, Hi. auto.
Qed.

Lemma superscript_digit_escapes_witness :
  _evaluate_expression [] (String "178" "") = Err ValueError /\
  _get_value_from_expression [] (String "178" "") = Err ValueError /\
  _parse_value [] (String "178" "") = Err ValueError.
Proof.
  exact (superscript_digit_escapes [] (String "178" "") eq_refl eq_refl).
Defined.

(* ------------------------------------------------------------------ *)
(** ** Values of key-value pairs *)

Lemma parse_value_digits : forall cs v,
  is_digits v = true -> _parse_value cs v = OK (VInt (digits_value 0 v)).
Proof.
  intros cs v H. unfold _parse_value.
  now rewrite (digits_isdigit _ H), (int_digits _ H).
Qed.

Lemma parse_value_bracketed : forall cs t,
  _parse_value cs ("[[" ++ t ++ "]]") = OK (VStr (codepoints t)).
Proof.
  intros cs t. unfold _parse_value.
  replace (isdigit ("[[" ++ t ++ "]]")) with false by reflexivity.
  replace (rmatch re_float ("[[" ++ t ++ "]]")) with (@None (list string))
    by reflexivity.
  rewrite (startswith_append "[[").
  replace ("[[" ++ t ++ "]]") with (("[[" ++ t) ++ "]]") at 1
    by now rewrite append_assoc.
  rewrite endswith_append. cbn [andb].
  now rewrite (slice_middle "[[" t "]]" : slice 2 2 ("[[" ++ t ++ "]]") = t).
Qed.

(** X8: a pair [<key> = <digits>;] stores the integer value of the
    digits under the key. *)
Theorem key_value_integer : forall cs key v,
  is_identifier key = true -> is_digits v = true ->
  _parse_key_value cs (key ++ " = " ++ v ++ ";") = OK (key, VInt (digits_value 0 v)).
Proof.
  intros cs key v Hk Hv. unfold _parse_key_value.
  destruct (digits_chars _ Hv) as [Hne Hc].
  rewrite key_value_match; auto.
  - unfold group. cbn [nth]. now rewrite (parse_value_digits _ _ Hv).
  - apply (forallb_str_impl ident_char); auto with chars.
Qed.

Lemma key_value_integer_witness :
  _parse_key_value [] "retries = 007;" = OK ("retries", VInt 7).
Proof.
  exact (key_value_integer [] "retries" "007" eq_refl eq_refl).
Defined.

(** X9: a value between [[[] and []]] is a String: the text between the
    brackets, character for character (also semicolons, spaces and further
    brackets), whatever the constants are. *)
Theorem key_value_bracketed_text : forall cs key t,
  is_identifier key = true -> forallb_str not_newline t = true ->
  _parse_value cs ("[[" ++ t ++ "]]") = OK (VStr (codepoints t)) /\
  _parse_key_value cs (key ++ " = [[" ++ t ++ "]];") = OK (key, VStr (codepoints t)).
Proof.
  intros cs key t Hk Ht. split; [apply parse_value_bracketed|].
  unfold _parse_key_value.
  change (key ++ " = [[" ++ t ++ "]];")
    with (key ++ " = " ++ ("[[" ++ t ++ String "]" (String "]" ";"))).
  replace ("[[" ++ t ++ String "]" (String "]" ";")) with (("[[" ++ t ++ "]]") ++ ";")
    by (simpl; now rewrite append_assoc).
  rewrite key_value_match; auto.
  - unfold group. cbn [nth]. now rewrite parse_value_bracketed.
  - simpl. rewrite forallb_str_append, Ht. reflexivity.
Qed.

Lemma key_value_bracketed_text_witness :
  _parse_value [] "[[a; [b] = c]]" = OK (VStr (codepoints "a; [b] = c")) /\
  _parse_key_value [] "msg = [[a; [b] = c]];" = OK ("msg", VStr (codepoints "a; [b] = c")).
Proof.
  exact (key_value_bracketed_text [] "msg" "a; [b] = c" eq_refl eq_refl).
Defined.

(* ------------------------------------------------------------------ *)
(** ** Lines the loop passes over, and white space around a line *)

Lemma lstrip_with_stops : forall p s, stops p (lstrip_with p s) = true.
Proof.
  induction s as [|c s IH]; simpl; auto.
  destruct (p c) eqn:Hc; auto. simpl. now rewrite Hc.
Qed.

Lemma rstrip_with_stops : forall p s,
  stops p s = true -> stops p (rstrip_with p s) = true.
Proof.
  intros p [|c s] H; simpl in *; auto.
  apply negb_true_iff in H.
  destruct (rstrip_with p s); rewrite ?H; simpl; now rewrite H.
Qed.

Lemma rstrip_with_idem : forall p s,
  rstrip_with p (rstrip_with p s) = rstrip_with p s.
Proof.
  induction s as [|c s IH]; simpl; auto.
  destruct (rstrip_with p s) as [|d r] eqn:Hr.
  - destruct (p c) eqn:Hc; simpl; auto. now rewrite Hc.
  - cbn [rstrip_with]. cbn [rstrip_with] in IH. now rewrite IH.
Qed.

(** [strip] of a stripped text changes nothing. *)
Lemma strip_idem : forall s, strip (strip s) = strip s.
Proof.
  intro s. unfold strip.
  rewrite (lstrip_with_id isspace_char (rstrip_with isspace_char _)).
  - apply rstrip_with_idem.
  - apply rstrip_with_stops, lstrip_with_stops.
Qed.

Lemma lstrip_blank : forall s, is_blank s = true -> lstrip_with isspace_char s = "".
Proof.
  unfold is_blank. induction s as [|c s IH]; simpl; intro H; auto.
  apply andb_true_iff in H as [Hc Hs]. now rewrite Hc, IH.
Qed.

Lemma step_skipped : forall st raw, is_skipped raw = true -> step st raw = OK st.
Proof. unfold is_skipped, step. intros st raw H. now rewrite H. Qed.

(** X10: the loop of [parse] looks at a line only after [strip]: white
    space before and after the line never changes what the line does. *)
Theorem step_ignores_outer_space : forall st raw before after,
  is_blank before = true -> is_blank after = true ->
  strip (before ++ raw ++ after) = strip raw /\
  step st (before ++ raw ++ after) = step st raw /\
  step st (strip raw) = step st raw.
Proof.
  intros st raw before after Hb Ha.
  assert (Hs : strip (before ++ raw ++ after) = strip raw).
  { unfold strip.
    assert (Hl : forall a s, is_blank a = true ->
              lstrip_with isspace_char (a ++ s) = lstrip_with isspace_char s).
    { unfold is_blank. induction a as [|c a IH]; simpl; intros s H; auto.
      apply andb_true_iff in H as [Hc H]. rewrite Hc. now apply IH. }
    assert (Hr : forall s a, is_blank a = true ->
              rstrip_with isspace_char (s ++ a) = rstrip_with isspace_char s).
    { unfold is_blank. induction s as [|c s IH]; simpl; intros a H.
      - induction a as [|d a IHa]; simpl; auto.
        simpl in H. apply andb_true_iff in H as [Hd H].
        now rewrite (IHa H), Hd.
      - now rewrite (IH a H). }
    rewrite Hl by exact Hb.
    destruct (lstrip_with isspace_char raw) as [|c r] eqn:Eraw.
    - assert (Hraw : is_blank raw = true).
      { clear - Eraw. unfold is_blank.
        induction raw as [|c raw IH]; simpl in *; auto.
        destruct (isspace_char c); [auto | discriminate]. }
      assert (Hboth : is_blank (raw ++ after) = true).
      { unfold is_blank in *. now rewrite forallb_str_append, Hraw, Ha. }
      now rewrite (lstrip_blank _ Hboth).
    - assert (Hl2 : lstrip_with isspace_char (raw ++ after)
                    = String c r ++ after).
      { clear - Eraw. induction raw as [|d raw IH]; simpl in *; [discriminate|].
        destruct (isspace_char d); [auto|]. now inversion Eraw. }
      rewrite Hl2. now apply Hr. }
  split; [exact Hs|].
  unfold step. rewrite Hs, strip_idem. auto.
Qed.

Lemma step_ignores_outer_space_witness :
  strip ("  " ++ "key = 1;" ++ String "009" " ") = strip "key = 1;" /\
  step (mkState [] [] (Some [])) ("  " ++ "key = 1;" ++ String "009" " ")
  = step (mkState [] [] (Some [])) "key = 1;" /\
  step (mkState [] [] (Some [])) (strip "key = 1;")
  = step (mkState [] [] (Some [])) "key = 1;".
Proof.
  exact (step_ignores_outer_space (mkState [] [] (Some [])) "key = 1;" "  "
           (String "009" " ") eq_refl eq_refl).
Defined.

(** X11: blank lines and comment lines are passed over, inside and
    outside a block: taking one out of the input changes nothing. *)
Theorem skipped_line_is_neutral : forall st pre raw post,
  is_skipped raw = true ->
  step st raw = OK st /\
  run_lines st (pre ++ raw :: post) = run_lines st (pre ++ post).
Proof.
  intros st pre raw post H. split; [now apply step_skipped|].
  rewrite !run_lines_app.
  destruct (run_lines st pre) as [st1|e]; cbn [bind]; auto.
  cbn [run_lines]. now rewrite (step_skipped st1 raw H).
Qed.

Lemma skipped_line_is_neutral_witness :
  step (start []) "  # def x := 1" = OK (start []) /\
  run_lines (start []) (["@{"] ++ "  # def x := 1" :: ["a = 1;"; "}"])
  = run_lines (start []) (["@{"] ++ ["a = 1;"; "}"]).
Proof.
  exact (skipped_line_is_neutral (start []) ["@{"] "  # def x := 1" ["a = 1;"; "}"]
           eq_refl).
Defined.

(** X12: the first line that fails ends the parse with its error: no
    document is returned and the lines after it are not looked at. *)
Theorem first_error_aborts : forall cs text pre bad post st1 e,
  splitlines (strip text) = (pre ++ bad :: post)%list ->
  run_lines (start cs) pre = OK st1 ->
  step st1 bad = Err e ->
  parse cs text = Err e.
Proof.
  intros cs text pre bad post st1 e Hl Hpre Hbad.
  unfold parse, parse_state. rewrite Hl, run_lines_app, Hpre.
  cbn [bind run_lines]. now rewrite Hbad.
Qed.

Lemma first_error_aborts_witness :
  parse [] ("@{" ++ String "010" "a = 1;" ++ String "010" "}" ++ String "010" "b = 2"
            ++ String "010" "@{" ++ String "010" "@{")
  = Err (SyntaxError "Unexpected line: b = 2").
Proof.
  exact (first_error_aborts []
           ("@{" ++ String "010" "a = 1;" ++ String "010" "}" ++ String "010" "b = 2"
            ++ String "010" "@{" ++ String "010" "@{")
           ["@{"; "a = 1;"; "}"] "b = 2" ["@{"; "@{"]
           (mkState [] [("dict1", [("a", VInt 1)])] None) _
           eq_refl eq_refl eq_refl).
Defined.

(** X13: an input of white space only (also the empty input) is the
    empty document, and leaves the constants as they are. *)
Theorem blank_input_is_empty_document : forall cs text,
  is_blank text = true ->
  parse cs text = OK [] /\ parse_state cs text = OK (start cs).
Proof.
  intros cs text H.
  assert (Hs : strip text = "").
  { unfold strip. now rewrite (lstrip_blank _ H). }
  unfold parse, parse_state. rewrite Hs. split; reflexivity.
Qed.

Lemma blank_input_is_empty_document_witness :
  parse [("a", VInt 1)] (String "010" (String "009" "  ")) = OK [] /\
  parse_state [("a", VInt 1)] (String "010" (String "009" "  "))
  = OK (start [("a", VInt 1)]).
Proof.
  exact (blank_input_is_empty_document [("a", VInt 1)]
           (String "010" (String "009" "  ")) eq_refl).
Defined.

(* ------------------------------------------------------------------ *)
(** ** What every state of [parse] satisfies *)

Lemma set_document_wf : forall (doc : document_t) name d,
  forallb (fun entry => block_wf (snd entry)) doc = true ->
  block_wf d = true ->
  forallb (fun entry => block_wf (snd entry)) (Dict.set name d doc) = true.
Proof.
  induction doc as [|[k v] doc IH]; simpl; intros name d Hdoc Hd.
  - now rewrite Hd.
  - apply andb_true_iff in Hdoc as [Hv Hdoc].
    destruct (String.eqb name k); simpl.
    + now rewrite Hd, Hdoc.
    + now rewrite Hv, IH.
Qed.

Lemma step_state_wf : forall st raw st',
  step st raw = OK st' -> state_wf st = true -> state_wf st' = true.
Proof.
  intros st raw st' H Hwf.
  unfold state_wf in Hwf.
  apply andb_true_iff in Hwf as [Hwf Hcur].
  apply andb_true_iff in Hwf as [Hcs Hdoc].
  destruct (startswith "def " (strip raw)) eqn:Hd.
  { pose proof (step_constants_wf _ _ _ H Hcs) as Hcs'.
    apply step_declaration in H as (Hp & Hc & _); auto.
    unfold state_wf. now rewrite Hcs', Hp, Hc, Hdoc, Hcur. }
  unfold step in H. rewrite Hd in H.
  destruct (negb (nonempty (strip raw)) || startswith "#" (strip raw)).
  { inversion H; subst st'. unfold state_wf. now rewrite Hcs, Hdoc, Hcur. }
  destruct (startswith "@{" (strip raw)).
  { destruct (current_dict st); [discriminate|].
    inversion H; subst st'. unfold state_wf. simpl. now rewrite Hcs, Hdoc. }
  destruct (current_dict st) as [d|]; [|discriminate].
  destruct (startswith "}" (strip raw)).
  { inversion H; subst st'. unfold state_wf. simpl.
    now rewrite Hcs, set_document_wf. }
  unfold _parse_key_value in H.
  destruct (rmatch re_key_value (strip raw)) as [m|] eqn:Hm; [|discriminate].
  apply key_value_sound in Hm as (key & value & rest & -> & _ & Hk & _).
  unfold group in H. cbn [nth] in H.
  destruct (_parse_value (constants st) value) as [v|e]; [|discriminate].
  simpl in H. inversion H; subst st'. unfold state_wf. simpl.
  rewrite Hcs, Hdoc. simpl. now apply set_constants_wf.
Qed.

Lemma run_lines_state_wf : forall lines st st',
  run_lines st lines = OK st' -> state_wf st = true -> state_wf st' = true.
Proof.
  induction lines as [|l lines IH]; simpl; intros st st' H Hwf.
  - now inversion H; subst.
  - destruct (step st l) as [st1|e] eqn:Hs; [|discriminate].
    simpl in H. eapply IH; eauto. eapply step_state_wf; eauto.
Qed.

(** X14: every name that [parse] stores is an identifier: the names of
    the constants and the keys of every block of the document (and of a
    block left open), provided the constants it started with were. *)
Theorem stored_names_are_identifiers : forall cs text st,
  constants_wf cs = true ->
  parse_state cs text = OK st ->
  state_wf st = true /\
  forallb (fun entry => block_wf (snd entry)) (parsed_data st) = true.
Proof.
  intros cs text st Hcs H. unfold parse_state in H.
  assert (Hwf : state_wf st = true).
  { eapply run_lines_state_wf; eauto.
    unfold state_wf, start. simpl. now rewrite Hcs. }
  split; auto. unfold state_wf in Hwf.
  apply andb_true_iff in Hwf as [Hwf _]. now apply andb_true_iff in Hwf as [_ Hwf].
Qed.

Lemma stored_names_are_identifiers_witness :
  state_wf (mkState [("n", VInt 2)] [("dict1", [("a", VInt 2); ("b_1", VInt 3)])] None)
  = true /\
  forallb (fun entry => block_wf (snd entry))
    (parsed_data (mkState [("n", VInt 2)]
                    [("dict1", [("a", VInt 2); ("b_1", VInt 3)])] None)) = true.
Proof.
  exact (stored_names_are_identifiers []
           ("def n := 2" ++ String "010" "@{" ++ String "010" "a = n;"
            ++ String "010" "b_1 = 3;" ++ String "010" "}")
           (mkState [("n", VInt 2)] [("dict1", [("a", VInt 2); ("b_1", VInt 3)])] None)
           eq_refl eq_refl).
Defined.

(* ------------------------------------------------------------------ *)
(** ** The document only grows, under the names dict1, dict2, ... *)






Lemma step_document : forall st raw st',
  step st raw = OK st' ->
  parsed_data st' = parsed_data st \/
  exists d, current_dict st = Some d /\
    parsed_data st'
    = (parsed_data st ++ [(_generate_dict_name (parsed_data st), d)])%list /\
    Dict.mem (_generate_dict_name (parsed_data st)) (parsed_data st) = false.
Proof.
  intros st raw st' H. unfold step in H.
  destruct (negb (nonempty (strip raw)) || startswith "#" (strip raw)).
  { inversion H; auto. }
  destruct (startswith "def " (strip raw)).
  { destruct (_parse_constant (constants st) (strip raw)); [|discriminate].
    inversion H; auto. }
  destruct (startswith "@{" (strip raw)).
  { destruct (current_dict st); [discriminate|]. inversion H; auto. }
  destruct (current_dict st) as [d|]; [|discriminate].
  destruct (startswith "}" (strip raw)).
  - right. exists d.
    assert (Hfree : Dict.mem (_generate_dict_name (parsed_data st)) (parsed_data st)
                    = false).
    { destruct (probe_enough (parsed_data st)) as [name Hp].
      destruct (probe_some _ _ _ _ Hp) as (i & _ & -> & Hfree & _).
      unfold _generate_dict_name. now rewrite Hp. }
    inversion H; subst st'. simpl. rewrite set_fresh; auto.
  - destruct (_parse_key_value (constants st) (strip raw)); [|discriminate].
    inversion H; auto.
Qed.

Lemma run_lines_extends : forall lines st st',
  run_lines st lines = OK st' -> extends (parsed_data st) (parsed_data st').
Proof.
  induction lines as [|l lines IH]; simpl; intros st st' H.
  - inversion H; subst. exists []. now rewrite app_nil_r.
  - destruct (step st l) as [st1|e] eqn:Hs; [|discriminate].
    simpl in H. apply IH in H as [more Hm].
    destruct (step_document _ _ _ Hs) as [E | (d & _ & E & _)].
    + rewrite <- E. now exists more.
    + rewrite Hm, E, <- app_assoc. unfold extends. eauto.
Qed.

(** X15: the document only grows at its end: a block, once closed, is
    never changed, renamed or removed by the lines that follow, because the
    generated name is never a key of the document. *)
Theorem closed_blocks_are_kept : forall st pre post st1 st2,
  run_lines st pre = OK st1 ->
  run_lines st (pre ++ post) = OK st2 ->
  extends (parsed_data st1) (parsed_data st2) /\
  forall name d, Dict.get name (parsed_data st1) = Some d ->
                 Dict.get name (parsed_data st2) = Some d.
Proof.
  intros st pre post st1 st2 H1 H2.
  rewrite run_lines_app, H1 in H2. cbn [bind] in H2.
  pose proof (run_lines_extends _ _ _ H2) as [more Hm].
  split; [now exists more|].
  intros name d Hg. rewrite Hm. clear - Hg.
  induction (parsed_data st1) as [|[k v] doc IH]; simpl in *; [discriminate|].
  destruct (String.eqb name k); auto.
Qed.

Lemma closed_blocks_are_kept_witness :
  extends (parsed_data (mkState [] [("dict1", [("a", VInt 1)])] None))
          (parsed_data (mkState [] [("dict1", [("a", VInt 1)]); ("dict2", [("a", VInt 2)])]
                          None)) /\
  forall name d,
    Dict.get name (parsed_data (mkState [] [("dict1", [("a", VInt 1)])] None)) = Some d ->
    Dict.get name
      (parsed_data (mkState [] [("dict1", [("a", VInt 1)]); ("dict2", [("a", VInt 2)])]
                      None)) = Some d.
Proof.
  exact (closed_blocks_are_kept (start []) ["@{"; "a = 1;"; "}"] ["@{"; "a = 2;"; "}"]
           (mkState [] [("dict1", [("a", VInt 1)])] None)
           (mkState [] [("dict1", [("a", VInt 1)]); ("dict2", [("a", VInt 2)])] None)
           eq_refl eq_refl).
Defined.





(* ------------------------------------------------------------------ *)
(** ** Declarations *)

Lemma star_stop : forall p k cur c s,
  p c = false -> star p k cur (String c s) = k cur (String c s).
Proof. intros p k cur c s H. unfold star. now rewrite H. Qed.

(** The pattern of declarations needs a name after [def]. *)
Lemma constant_needs_name : forall c rest,
  isspace_char c = false -> ident_start c = false ->
  rmatch re_constant ("def " ++ String c rest) = None.
Proof.
  intros c rest Hs Hi. unfold rmatch, re_constant. simpl.
  do 3 step_lit.
  rewrite run_Plus_step by reflexivity.
  rewrite star_stop by exact Hs.
  rewrite run_Open. unfold run. now rewrite Hi.
Qed.

(** X17: a line that starts with [def ] is taken as a declaration before
    the state of the block is looked at. When what follows is not a name
    (as in a key-value pair whose key is [def]) the line fails as an
    invalid constant definition, inside a block as well as outside. *)
Theorem def_line_is_declaration : forall st raw c rest,
  strip raw = "def " ++ String c rest ->
  isspace_char c = false -> ident_start c = false ->
  step st raw = Err (SyntaxError ("Invalid constant definition: " ++ strip raw)).
Proof.
  intros st raw c rest E Hs Hi. unfold step. rewrite E.
  cbn [append nonempty startswith is_char Ascii.eqb Bool.eqb negb orb andb].
  unfold _parse_constant.
  change (String "d" (String "e" (String "f" (String " " (String c rest)))))
    with ("def " ++ String c rest).
  now rewrite (constant_needs_name c rest Hs Hi).
Qed.

Lemma def_line_is_declaration_witness :
  step (mkState [] [] (Some [])) "def = 1;"
  = Err (SyntaxError "Invalid constant definition: def = 1;").
Proof.
  exact (def_line_is_declaration (mkState [] [] (Some [])) "def = 1;" "=" " 1;"
           eq_refl eq_refl eq_refl).
Defined.

Lemma blank_then_stops_ident : forall ws rest,
  is_blank ws = true -> stops ident_char rest = true ->
  stops ident_char (ws ++ rest) = true.
Proof.
  intros [|c ws] rest Hw Hr; simpl; auto.
  unfold is_blank in Hw. simpl in Hw. apply andb_true_iff in Hw as [Hc _].
  destruct (ident_char c) eqn:Hi; auto.
  apply ident_char_nonspace in Hi. congruence.
Qed.

(** The pattern of declarations with any white space at its three
    places. *)
Lemma constant_match_spaced : forall ws1 name ws2 ws3 v,
  nonempty ws1 = true -> is_blank ws1 = true ->
  is_blank ws2 = true -> is_blank ws3 = true ->
  is_identifier name = true -> is_digits v = true ->
  rmatch re_constant ("def" ++ ws1 ++ name ++ ws2 ++ ":=" ++ ws3 ++ v)
  = Some [name; v].
Proof.
  intros ws1 [|c name] ws2 ws3 v Hn1 H1 H2 H3 Hk Hv; [discriminate|].
  simpl in Hk. apply andb_true_iff in Hk as [Hc Hk].
  destruct (digits_chars _ Hv) as [Hne Hic].
  unfold rmatch, re_constant. simpl.
  do 3 step_lit.
  apply run_Plus_greedy; auto.
  { unfold stops, space. rewrite (ident_char_nonspace c); auto with chars. }
  do 2 step_lit.
  apply run_Star_greedy; auto.
  { apply blank_then_stops_ident; auto. }
  step_lit.
  apply (run_Star_greedy space); auto.
  do 2 step_lit.
  apply (run_Star_greedy space); auto.
  { now apply digits_stop_space. }
  step_lit.
  rewrite <- (append_nil_r v) at 1.
  apply run_Plus_greedy; auto.
  apply (forallb_str_impl ident_char); auto with chars.
Qed.

Lemma mem_set_keeps : forall (V : Type) k k' (v : V) d,
  Dict.mem k d = true -> Dict.mem k (Dict.set k' v d) = true.
Proof.
  intros V k k' v d H. unfold Dict.mem in *.
  destruct (String.eqb k k') eqn:E.
  - apply String.eqb_eq in E. subst k'. now rewrite get_set_same.
  - apply String.eqb_neq in E. now rewrite get_set_other.
Qed.

Lemma step_keeps_constants : forall st raw st' k,
  step st raw = OK st' ->
  Dict.mem k (constants st) = true -> Dict.mem k (constants st') = true.
Proof.
  intros st raw st' k H Hk.
  destruct (startswith "def " (strip raw)) eqn:Hd.
  - apply step_declaration in H as (_ & _ & name & value & _ & ->); auto.
    now apply mem_set_keeps.
  - now rewrite (step_constants _ _ _ H Hd).
Qed.

(** X19: a constant, once declared, stays declared for the rest of the
    parse (and for later calls of [parse] on the same parser): no line
    removes an entry of the table of constants. *)
Theorem constants_are_never_removed : forall lines st st' k,
  run_lines st lines = OK st' ->
  Dict.mem k (constants st) = true -> Dict.mem k (constants st') = true.
Proof.
  induction lines as [|l lines IH]; simpl; intros st st' k H Hk.
  - now inversion H; subst.
  - destruct (step st l) as [st1|e] eqn:Hs; [|discriminate].
    simpl in H. eapply IH; eauto. eapply step_keeps_constants; eauto.
Qed.

Lemma constants_are_never_removed_witness :
  Dict.mem "a" (constants (mkState [("a", VInt 2); ("b", VInt 1)] [("dict1", [])] None))
  = true.
Proof.
  exact (constants_are_never_removed ["def b := 1"; "@{"; "}"; "def a := 2"]
           (start [("a", VInt 1)])
           (mkState [("a", VInt 2); ("b", VInt 1)] [("dict1", [])] None) "a"
           eq_refl eq_refl).
Defined.

(** X20: a value token that is an identifier but names no constant of
    the table (not declared, or declared only further down) fails with
    "Invalid value": constants are not resolved ahead. *)
Theorem undeclared_constant_fails : forall cs key n,
  is_identifier key = true -> is_identifier n = true ->
  Dict.get n cs = None ->
  _parse_key_value cs (key ++ " = " ++ n ++ ";")
  = Err (SyntaxError ("Invalid value: " ++ n)).
Proof.
  intros cs key n Hk Hn Hg. unfold _parse_key_value.
  destruct (identifier_chars _ Hn) as [Hne Hc].
  rewrite key_value_match; auto.
  - unfold group. cbn [nth]. unfold _parse_value.
    rewrite (identifier_not_isdigit _ Hn), (float_pattern_not_identifier _ Hn).
    now rewrite (identifier_not_bracketed _ Hn), Hg.
  - apply (forallb_str_impl ident_char); auto with chars.
Qed.

Lemma undeclared_constant_fails_witness :
  _parse_key_value [("a", VInt 1)] "k = b;" = Err (SyntaxError "Invalid value: b").
Proof.
  exact (undeclared_constant_fails [("a", VInt 1)] "k" "b" eq_refl eq_refl eq_refl).
Defined.

(* ------------------------------------------------------------------ *)
(** ** Text after a binary expression; the bound of the recursion *)

Section GiveBackRest.

Variable p : ascii -> bool.
Variable k : string -> string -> option (list string).

(** A repetition gives its last character back when the rest of the
    pattern does not match after it. *)
Lemma star_give_back_rest : forall w cur c rest r,
  forallb_str p w = true -> p c = true -> stops p rest = true ->
  k (cur ++ w ++ String c "") rest = None ->
  k (cur ++ w) (String c rest) = Some r ->
  star p k cur (w ++ String c rest) = Some r.
Proof.
  induction w as [|a w IH]; intros cur c rest r Hw Hc Hs Hend Hk.
  - cbn [append] in *. unfold star. rewrite Hc. fold star.
    assert (Hin : star p k (snoc cur c) rest = None).
    { destruct rest as [|d rest]; [exact Hend|].
      simpl in Hs. apply negb_true_iff in Hs. now rewrite star_stop. }
    rewrite Hin. now rewrite append_nil_r in Hk.
  - simpl in Hw. apply andb_true_iff in Hw as [Ha Hw].
    cbn [append]. unfold star. rewrite Ha. fold star.
    rewrite (IH (snoc cur a) c rest r); auto; now rewrite snoc_append.
Qed.

End GiveBackRest.

Lemma run_Lit_other : forall a re caps cur c s,
  is_char a c = false -> run (Lit a :: re) caps cur (String c s) = None.
Proof. intros a re caps cur c s H. unfold Lit, run. now rewrite H. Qed.

Lemma binary_match_trailing : forall op l r c junk,
  is_op op = true -> is_word l = true -> is_word r = true ->
  isspace_char c = true ->
  rmatch re_binary ("#(" ++ String op " " ++ l ++ " " ++ r ++ ")" ++ String c junk)
  = Some [String op ""; l; r].
Proof.
  intros op l r c junk Hop Hl Hr Hc.
  apply word_parts in Hl as [Hl Hla]. apply word_parts in Hr as [Hr Hra].
  unfold rmatch, re_binary. simpl.
  do 5 step_lit.
  apply (run_Star_greedy space _ _ " "); auto.
  { destruct l as [|a l]; [discriminate|]. simpl in *.
    apply andb_true_iff in Hla as [Ha _]. exact Ha. }
  step_lit.
  apply run_Plus_greedy; auto.
  step_lit.
  apply (run_Star_greedy space _ _ " "); auto.
  { destruct r as [|a r]; [discriminate|]. simpl in *.
    apply andb_true_iff in Hra as [Ha _]. exact Ha. }
  step_lit.
  destruct r as [|a r]; [discriminate|].
  simpl in Hra. apply andb_true_iff in Hra as [Ha Hra].
  cbn [append]. rewrite run_Plus_step by exact Ha.
  apply star_give_back_rest; auto.
  - unfold stops, nonspace_char. now rewrite Hc.
  - rewrite run_Close. apply run_Lit_other.
    destruct (is_char ")" c) eqn:E; [|reflexivity].
    apply is_char_eq in E. subst c. discriminate Hc.
Qed.

(** X21: the binary pattern is matched at the start of the expression
    only: text that follows the closing parenthesis after white space is
    not looked at, and the expression has the value it has without it. *)
Theorem text_after_binary_is_ignored : forall cs op l r c junk,
  is_op op = true -> is_word l = true -> is_word r = true ->
  isspace_char c = true ->
  _evaluate_expression cs
    ("#(" ++ String op " " ++ l ++ " " ++ r ++ ")" ++ String c junk)
  = _evaluate_expression cs ("#(" ++ String op " " ++ l ++ " " ++ r ++ ")").
Proof.
  intros cs op l r c junk Hop Hl Hr Hc.
  rewrite evaluate_binary_words by auto.
  rewrite (evaluate_binary cs
             ("#(" ++ String op " " ++ l ++ " " ++ r ++ ")" ++ String c junk)
             [String op ""; l; r] eq_refl eq_refl
             (binary_match_trailing op l r c junk Hop Hl Hr Hc)).
  reflexivity.
Qed.

Lemma text_after_binary_is_ignored_witness :
  _evaluate_expression [] ("#(" ++ String "+" " " ++ "1" ++ " " ++ "2" ++ ")"
                           ++ String " " "and more")
  = _evaluate_expression [] "#(+ 1 2)".
Proof.
  exact (text_after_binary_is_ignored [] "+" "1" "2" " " "and more"
           eq_refl eq_refl eq_refl eq_refl).
Defined.

(** X22: the recursion of the evaluator ends: the inner expression of
    the unary form is at least four characters shorter than the
    expression, and evaluation with any bound above the length of the
    expression gives the result. *)
Theorem evaluation_ends : forall cs expr fuel,
  (String.length expr < fuel)%nat ->
  eval_fuel fuel cs expr = Some (_evaluate_expression cs expr) /\
  forall m, rmatch re_unary expr = Some m ->
            (String.length (group 1 m) + 4 <= String.length expr)%nat.
Proof.
  intros cs expr fuel Hlen. split.
  - apply (eval_fuel_stable (S (String.length expr))); [|lia].
    apply evaluate_expression_fuel.
  - intros m Hm.
    apply unary_sound in Hm as (op & ws & inner & rest & -> & -> & _).
    unfold group. cbn [nth]. simpl. rewrite !length_append. simpl. lia.
Qed.

Lemma evaluation_ends_witness :
  eval_fuel 7 [] "#(- 5)" = Some (_evaluate_expression [] "#(- 5)") /\
  forall m, rmatch re_unary "#(- 5)" = Some m ->
            (String.length (group 1 m) + 4 <= String.length "#(- 5)")%nat.
Proof.
  apply (evaluation_ends [] "#(- 5)" 7). simpl. lia.
Defined.

(* ------------------------------------------------------------------ *)
(** ** Decimal values *)

Lemma span_digits_append : forall a rest,
  forallb_str dec_digit a = true -> stops dec_digit rest = true ->
  span_digits (a ++ rest) = (a, rest).
Proof.
  induction a as [|c a IH]; intros rest Ha Hr.
  - destruct rest as [|d rest]; auto. simpl in Hr.
    apply negb_true_iff in Hr. cbn [append]. unfold span_digits.
    now rewrite Hr.
  - simpl in Ha. apply andb_true_iff in Ha as [Hc Ha].
    cbn [append]. unfold span_digits; fold span_digits.
    now rewrite Hc, IH.
Qed.

Lemma digits_parts : forall v,
  is_digits v = true -> nonempty v = true /\ forallb_str dec_digit v = true.
Proof. unfold is_digits. intros v H. now apply andb_true_iff in H. Qed.

Lemma float_pattern_match : forall ip fp,
  is_digits ip = true -> is_digits fp = true ->
  rmatch re_float (ip ++ "." ++ fp) = Some [].
Proof.
  intros ip fp Hi Hf.
  apply digits_parts in Hi as [Hi1 Hi2]. apply digits_parts in Hf as [Hf1 Hf2].
  unfold rmatch, re_float.
  apply run_Plus_greedy; auto.
  cbn [append]. step_lit.
  rewrite <- (append_nil_r fp) at 1.
  apply run_Plus_greedy; auto.
Qed.

Lemma float_decimal : forall ip fp,
  is_digits ip = true -> is_digits fp = true ->
  float (ip ++ "." ++ fp)
  = OK (SFdiv prec emax (exact (digits_value 0 (ip ++ fp)))
          (exact (10 ^ Z.of_nat (String.length fp)))).
Proof.
  intros ip fp Hi Hf. unfold float.
  pose proof (digits_stop_space _ Hi) as Hs.
  destruct (digits_chars _ Hf) as [Hfn Hfc].
  apply digits_parts in Hi as [Hi1 Hi2]. apply digits_parts in Hf as [Hf1 Hf2].
  destruct (nonempty_last _ _ Hfn Hfc) as (a & c & Ef & Hc).
  rewrite (strip_edges (ip ++ "." ++ fp) (ip ++ "." ++ a) c).
  - rewrite span_digits_append by auto. cbn [append].
    rewrite <- (append_nil_r fp) at 1.
    rewrite span_digits_append by auto.
    now rewrite is_char_refl, Hi1, Hf1.
  - destruct ip as [|x ip]; [discriminate|]. exact Hs.
  - rewrite Ef. now rewrite !append_assoc.
  - auto with chars.
Qed.

(** X23: a pair [<key> = <digits>.<digits>;] stores a Float: the decimal
    number, with the digits before and after the point as numerator over
    the power of ten, rounded once to the nearest double. *)
Theorem key_value_decimal : forall cs key ip fp,
  is_identifier key = true -> is_digits ip = true -> is_digits fp = true ->
  _parse_key_value cs (key ++ " = " ++ (ip ++ "." ++ fp) ++ ";")
  = OK (key, VFloat (SFdiv prec emax (exact (digits_value 0 (ip ++ fp)))
                       (exact (10 ^ Z.of_nat (String.length fp))))).
Proof.
  intros cs key ip fp Hk Hi Hf. unfold _parse_key_value.
  destruct (digits_chars _ Hi) as [Hin Hic].
  destruct (digits_chars _ Hf) as [Hfn Hfc].
  assert (Hnl : forallb_str not_newline (ip ++ "." ++ fp) = true).
  { rewrite forallb_str_append. cbn [append forallb_str].
    rewrite (forallb_str_impl ident_char not_newline ip) by auto with chars.
    now rewrite (forallb_str_impl ident_char not_newline fp) by auto with chars. }
  rewrite key_value_match; auto.
  2:{ destruct ip; [discriminate | reflexivity]. }
  unfold group. cbn [nth]. unfold _parse_value.
  assert (Hd : isdigit (ip ++ "." ++ fp) = false).
  { unfold isdigit. rewrite forallb_str_append. cbn [append forallb_str].
    replace (isdigit_char ".") with false by reflexivity.
    now rewrite andb_false_r, andb_false_r. }
  now rewrite Hd, (float_pattern_match _ _ Hi Hf), (float_decimal _ _ Hi Hf).
Qed.

Lemma key_value_decimal_witness :
  _parse_key_value [] "ratio = 0.5;" = OK ("ratio", VFloat half).
Proof.
  exact (key_value_decimal [] "ratio" "0" "5" eq_refl eq_refl eq_refl).
Defined.

(* ------------------------------------------------------------------ *)
(** ** A pair, from its line to the document *)

Lemma key_line_not_def : forall key rest,
  is_identifier key = true -> key <> "def" ->
  startswith "def " (key ++ String " " rest) = false.
Proof.
  intros key rest Hk Hne.
  apply identifier_chars in Hk as [_ Hc].
  destruct key as [|c1 [|c2 [|c3 [|c4 key]]]]; try reflexivity;
    cbn [append startswith].
  - destruct (is_char "d" c1); reflexivity.
  - destruct (is_char "d" c1), (is_char "e" c2); reflexivity.
  - destruct (is_char "d" c1) eqn:E1; [|reflexivity].
    destruct (is_char "e" c2) eqn:E2; [|reflexivity].
    destruct (is_char "f" c3) eqn:E3; [|reflexivity].
    apply is_char_eq in E1, E2, E3. subst. now contradiction Hne.
  - destruct (is_char "d" c1); [|reflexivity].
    destruct (is_char "e" c2); [|reflexivity].
    destruct (is_char "f" c3); [|reflexivity].
    cbn [andb]. destruct (is_char " " c4) eqn:E4; [|reflexivity].
    apply is_char_eq in E4. subst c4.
    cbn [forallb_str] in Hc. rewrite !andb_true_iff in Hc.
    destruct Hc as (_ & _ & _ & Hc & _). discriminate Hc.
Qed.

Lemma key_line_not_special : forall key rest,
  is_identifier key = true ->
  nonempty (key ++ rest) = true /\
  startswith "#" (key ++ rest) = false /\
  startswith "@{" (key ++ rest) = false /\
  startswith "}" (key ++ rest) = false /\
  stops space (key ++ rest) = true.
Proof.
  intros [|c key] rest Hk; [discriminate|].
  simpl in Hk. apply andb_true_iff in Hk as [Hc _].
  cbn [append nonempty startswith stops].
  assert (H1 : is_char "#" c = false)
    by (destruct (is_char "#" c) eqn:E; auto; apply is_char_eq in E; now subst c).
  assert (H2 : is_char "@" c = false)
    by (destruct (is_char "@" c) eqn:E; auto; apply is_char_eq in E; now subst c).
  assert (H3 : is_char "}" c = false)
    by (destruct (is_char "}" c) eqn:E; auto; apply is_char_eq in E; now subst c).
  rewrite H1, H2, H3. unfold space.
  rewrite (ident_char_nonspace c) by auto with chars. auto.
Qed.

(** The step of the loop on a key-value line inside a block. *)
Lemma step_key_value : forall cs doc d key value v,
  is_identifier key = true -> key <> "def" ->
  nonempty value = true -> forallb_str not_newline value = true ->
  _parse_value cs value = OK v ->
  step (mkState cs doc (Some d)) (key ++ " = " ++ value ++ ";")
  = OK (mkState cs doc (Some (Dict.set key v d))).
Proof.
  intros cs doc d key value v Hk Hne Hn Hv Hp. unfold step.
  destruct (key_line_not_special key (" = " ++ value ++ ";") Hk)
    as (H0 & H1 & H2 & H3 & H4).
  rewrite (strip_edges (key ++ " = " ++ value ++ ";") (key ++ " = " ++ value) ";");
    auto.
  2:{ now rewrite !append_assoc. }
  rewrite H0, H1, H2, H3.
  rewrite (key_line_not_def key ("= " ++ value ++ ";") Hk Hne
           : startswith "def " (key ++ " = " ++ value ++ ";") = false).
  cbn [negb orb current_dict constants parsed_data].
  unfold _parse_key_value. rewrite key_value_match; auto.
  unfold group. cbn [nth]. now rewrite Hp.
Qed.

(** X24: a block with one pair, from the lines to the document: for a
    key that is an identifier other than [def] and a value of decimal
    digits, the lines [@{], [<key> = <digits>;], [}] give a document whose
    only block is dict1, in which the key is bound to the integer; the
    constants are as before. *)
Theorem pair_reaches_document : forall cs key v,
  is_identifier key = true -> key <> "def" -> is_digits v = true ->
  run_lines (start cs) ["@{"; key ++ " = " ++ v ++ ";"; "}"]
  = OK (mkState cs [("dict1", [(key, VInt (digits_value 0 v))])] None).
Proof.
  intros cs key v Hk Hne Hv.
  destruct (digits_chars _ Hv) as [Hn Hc].
  cbn [run_lines]. replace (step (start cs) "@{") with (OK (mkState cs [] (Some [])))
    by reflexivity.
  cbn [bind].
  assert (Hs : step (mkState cs [] (Some [])) (key ++ " = " ++ v ++ ";")
               = OK (mkState cs [] (Some [(key, VInt (digits_value 0 v))]))).
  { apply (step_key_value cs [] [] key v (VInt (digits_value 0 v))); auto.
    - apply (forallb_str_impl ident_char); auto with chars.
    - now apply parse_value_digits. }
  rewrite Hs. reflexivity.
Qed.

Lemma pair_reaches_document_witness :
  run_lines (start []) ["@{"; "port = 8080;"; "}"]
  = OK (mkState [] [("dict1", [("port", VInt 8080)])] None).
Proof.
  refine (pair_reaches_document [] "port" "8080" eq_refl _ eq_refl).
  discriminate.
Defined.

(* ------------------------------------------------------------------ *)
(** ** Where the value of a key-value line ends *)

Section LastSuccess.

Variable p : ascii -> bool.
Variable k : string -> string -> option (list string).

(** A repetition after which the rest of the pattern matches nowhere
    fails. *)
Lemma star_all_fail : forall s cur,
  (forall x y, s = x ++ y -> k (cur ++ x) y = None) ->
  star p k cur s = None.
Proof.
  induction s as [|c s IH]; intros cur H.
  - unfold star. specialize (H "" "" eq_refl). now rewrite append_nil_r in H.
  - assert (Hhere : k cur (String c s) = None).
    { specialize (H "" (String c s) eq_refl). now rewrite append_nil_r in H. }
    unfold star; fold star. destruct (p c); auto.
    rewrite IH; auto.
    intros x y E. rewrite snoc_append. apply (H (String c x) y).
    simpl. now rewrite E.
Qed.

(** A repetition stops at the last place where the rest of the pattern
    matches. *)
Lemma star_last_success : forall w cur s r,
  forallb_str p w = true ->
  k (cur ++ w) s = Some r ->
  (forall x y, s = x ++ y -> nonempty x = true -> k (cur ++ w ++ x) y = None) ->
  star p k cur (w ++ s) = Some r.
Proof.
  induction w as [|a w IH]; intros cur s r Hw Hk Hlater.
  - cbn [append] in *. rewrite append_nil_r in Hk.
    destruct s as [|c s]; [exact Hk|].
    unfold star; fold star. destruct (p c); auto.
    rewrite star_all_fail; auto.
    intros x y E. rewrite snoc_append. apply (Hlater (String c x) y); auto.
    simpl. now rewrite E.
  - simpl in Hw. apply andb_true_iff in Hw as [Ha Hw].
    cbn [append]. unfold star; fold star. rewrite Ha.
    rewrite (IH (snoc cur a) s r); auto.
    + now rewrite snoc_append.
    + intros x y E Hx. rewrite snoc_append. now apply Hlater.
Qed.

End LastSuccess.

Lemma no_semicolon_tail : forall x y,
  no_semicolon (x ++ y) = true -> stops (is_char ";") y = true.
Proof.
  unfold no_semicolon. intros x y H. rewrite forallb_str_append in H.
  apply andb_true_iff in H as [_ H].
  destruct y as [|c y]; auto. simpl in *. now apply andb_true_iff in H as [H _].
Qed.

(** The key-value pattern on a line with text after its last semicolon:
    the value runs to that semicolon. *)
Lemma key_value_match_rest : forall key value rest,
  is_identifier key = true ->
  nonempty value = true -> forallb_str not_newline value = true ->
  no_semicolon rest = true ->
  rmatch re_key_value (key ++ " = " ++ value ++ ";" ++ rest) = Some [key; value].
Proof.
  intros [|c key] value rest Hk Hn Hv Hrest; [discriminate|].
  simpl in Hk. apply andb_true_iff in Hk as [Hc Hk].
  destruct value as [|a value]; [discriminate|].
  simpl in Hv. apply andb_true_iff in Hv as [Ha Hv].
  unfold rmatch, re_key_value. simpl.
  do 2 step_lit.
  apply run_Star_greedy; auto.
  do 5 step_lit.
  rewrite run_Plus_step by exact Ha.
  apply star_last_success; auto.
  intros x y E Hx. rewrite run_Close.
  destruct x as [|b x]; [discriminate|].
  simpl in E. inversion E as [[Eb Ey]]. clear E.
  rewrite Ey in Hrest. apply no_semicolon_tail in Hrest.
  destruct y as [|d y]; [apply run_Lit_end|].
  apply run_Lit_other. simpl in Hrest. now apply negb_true_iff in Hrest.
Qed.

(** A line without semicolon is not of the key-value shape. *)
Lemma no_semicolon_outside_shape : forall line,
  no_semicolon line = true -> ~ key_value_shape line.
Proof. intros line H. now apply no_semicolon_no_shape. Qed.

(** C3 (amended): a line parsed as a key-value pair must begin with
    [<identifier> = <value>;], with single spaces around [=] and a
    semicolon after the value; every line that does not begin so (no
    semicolon, [==] for [=], extra spaces around [=]) fails with a
    SyntaxError. The pattern is matched at the start of the line only and
    the value runs up to the last semicolon: what follows the last semicolon
    is not looked at, and the line gives what the value parser gives for the
    value, the pair or its error. *)
Theorem key_value_line_grammar : forall cs line,
  constants_wf cs = true ->
  (~ key_value_shape line -> is_syntax_error (_parse_key_value cs line) = true) /\
  (forall key value rest,
     line = key ++ " = " ++ value ++ ";" ++ rest ->
     is_identifier key = true ->
     nonempty value = true -> forallb_str not_newline value = true ->
     no_semicolon rest = true ->
     _parse_key_value cs line = (v <- _parse_value cs value ;; OK (key, v))).
Proof.
  intros cs line Hwf. split.
  - intro Hno. now apply key_value_deviation_fails.
  - intros key value rest -> Hk Hn Hv Hrest. unfold _parse_key_value.
    now rewrite key_value_match_rest.
Qed.

Lemma key_value_line_grammar_witness :
  is_syntax_error (_parse_key_value [] "key = 3") = true /\
  _parse_key_value [] "key = 3; junk" = (v <- _parse_value [] "3" ;; OK ("key", v)) /\
  _parse_key_value [] "key = 3; junk;"
  = (v <- _parse_value [] "3; junk" ;; OK ("key", v)).
Proof.
  split; [|split].
  - apply (proj1 (key_value_line_grammar [] "key = 3" eq_refl)).
    apply no_semicolon_outside_shape. reflexivity.
  - apply (proj2 (key_value_line_grammar [] "key = 3; junk" eq_refl) "key" "3" " junk");
      reflexivity.
  - apply (proj2 (key_value_line_grammar [] "key = 3; junk;" eq_refl)
             "key" "3; junk" ""); reflexivity.
Defined.

(** Text after a semicolon that is not the last one belongs to the
    value, and no value has this form. *)
Example key_value_inner_semicolon :
  _parse_key_value [] "key = 3; junk;" = Err (SyntaxError "Invalid value: 3; junk") /\
  _parse_key_value [] "key = 3;;" = Err (SyntaxError "Invalid value: 3;").
Proof. split; reflexivity. Qed.

(* ------------------------------------------------------------------ *)
(** ** A declaration of any expression, through the step of the loop *)

Lemma rstrip_with_append : forall p x e,
  nonempty e = true -> rstrip_with p e = e ->
  rstrip_with p (x ++ e) = x ++ e.
Proof.
  intros p x e Hn He. induction x as [|a x IH]; cbn [append]; auto.
  cbn [rstrip_with]. rewrite IH.
  destruct x; [destruct e; [discriminate | reflexivity] | reflexivity].
Qed.

Lemma strip_fixed_parts : forall e,
  strip e = e -> stops space e = true /\ rstrip_with isspace_char e = e.
Proof.
  intros e H.
  assert (Hs : stops space e = true).
  { rewrite <- H. unfold strip, space. apply rstrip_with_stops, lstrip_with_stops. }
  split; auto. unfold strip in H. now rewrite lstrip_with_id in H by exact Hs.
Qed.

(** The step of the loop on [def <name> := <expression>], for an
    expression without white space at its ends. *)
Lemma step_declaration_eval : forall cs doc cur n e w,
  is_identifier n = true ->
  nonempty e = true -> strip e = e -> forallb_str not_newline e = true ->
  _evaluate_expression cs e = OK w ->
  step (mkState cs doc cur) ("def " ++ n ++ " := " ++ e)
  = OK (mkState (Dict.set n w cs) doc cur).
Proof.
  intros cs doc cur n e w Hn Hne Hst Hnl Hev.
  destruct (strip_fixed_parts e Hst) as [Hstop Hr].
  assert (Hline : strip ("def " ++ n ++ " := " ++ e) = "def " ++ n ++ " := " ++ e).
  { unfold strip. rewrite lstrip_with_id by reflexivity.
    replace ("def " ++ n ++ " := " ++ e) with (("def " ++ n ++ " := ") ++ e)
      by now rewrite !append_assoc.
    now apply rstrip_with_append. }
  assert (Hp : _parse_constant cs ("def " ++ n ++ " := " ++ e) = OK (Dict.set n w cs)).
  { unfold _parse_constant. rewrite (constant_match n e); auto.
    unfold group. cbn [nth]. rewrite replace_newlines_id by exact Hnl.
    now rewrite Hst, Hev. }
  unfold step. rewrite Hline.
  cbn [append nonempty startswith is_char Ascii.eqb Bool.eqb negb orb andb constants].
  change (String "d" (String "e" (String "f" (String " "
            (n ++ String " " (String ":" (String "=" (String " " e))))))))
    with ("def " ++ n ++ " := " ++ e).
  now rewrite Hp.
Qed.

(** C7: a value token that names a constant is replaced by the value the
    constant has when the pair is parsed. A later declaration of the same
    constant succeeds without complaint and overwrites that entry of the
    table of constants, and nothing else: the other constants, the open
    block and the document, with the value already stored in it, are as
    before; only a pair parsed after the declaration reads the new value. *)
Theorem constant_read_at_parse_time : forall cs doc d key n v e w,
  is_identifier key = true -> key <> "def" -> is_identifier n = true ->
  Dict.get n cs = Some v ->
  nonempty e = true -> strip e = e -> forallb_str not_newline e = true ->
  _evaluate_expression cs e = OK w ->
  let cs' := Dict.set n w cs in
  let block := Dict.set key v d in
  _parse_key_value cs (key ++ " = " ++ n ++ ";") = OK (key, v) /\
  (forall doc0 cur,
     step (mkState cs doc0 cur) ("def " ++ n ++ " := " ++ e)
     = OK (mkState cs' doc0 cur)) /\
  Dict.get n cs' = Some w /\
  (forall other, other <> n -> Dict.get other cs' = Dict.get other cs) /\
  run_lines (mkState cs doc (Some d))
    [key ++ " = " ++ n ++ ";"; "}"; "def " ++ n ++ " := " ++ e]
  = OK (mkState cs' (Dict.set (_generate_dict_name doc) block doc) None) /\
  Dict.get key block = Some v /\
  _parse_key_value cs' (key ++ " = " ++ n ++ ";") = OK (key, w).
Proof.
  intros cs doc d key n v e w Hk Hne Hn Hg Hen Hst Hnl Hev cs' block.
  assert (Hdef : forall doc0 cur,
            step (mkState cs doc0 cur) ("def " ++ n ++ " := " ++ e)
            = OK (mkState cs' doc0 cur)).
  { intros doc0 cur. now apply step_declaration_eval. }
  assert (Hg' : Dict.get n cs' = Some w) by apply get_set_same.
  destruct (identifier_chars _ Hn) as [Hnn Hnc].
  assert (Hpair : step (mkState cs doc (Some d)) (key ++ " = " ++ n ++ ";")
                  = OK (mkState cs doc (Some block))).
  { apply step_key_value; auto.
    - apply (forallb_str_impl ident_char); auto with chars.
    - now apply parse_value_identifier. }
  repeat split.
  - now apply parse_key_value_constant.
  - exact Hdef.
  - exact Hg'.
  - intros other Ho. now apply get_set_other.
  - cbn [run_lines]. rewrite Hpair. cbn [bind].
    replace (step (mkState cs doc (Some block)) "}")
      with (OK (mkState cs (Dict.set (_generate_dict_name doc) block doc) None))
      by reflexivity.
    cbn [bind]. now rewrite Hdef.
  - apply get_set_same.
  - now apply parse_key_value_constant.
Qed.

Lemma constant_read_at_parse_time_witness :
  _parse_key_value [("a", VInt 1)] "k = a;" = OK ("k", VInt 1) /\
  (forall doc0 cur,
     step (mkState [("a", VInt 1)] doc0 cur) "def a := #(+ a 1)"
     = OK (mkState [("a", VInt 2)] doc0 cur)) /\
  Dict.get "a" [("a", VInt 2)] = Some (VInt 2) /\
  (forall other, other <> "a" ->
     Dict.get other [("a", VInt 2)] = Dict.get other [("a", VInt 1)]) /\
  run_lines (mkState [("a", VInt 1)] [] (Some [])) ["k = a;"; "}"; "def a := #(+ a 1)"]
  = OK (mkState [("a", VInt 2)] [("dict1", [("k", VInt 1)])] None) /\
  Dict.get "k" [("k", VInt 1)] = Some (VInt 1) /\
  _parse_key_value [("a", VInt 2)] "k = a;" = OK ("k", VInt 2).
Proof.
  refine (constant_read_at_parse_time [("a", VInt 1)] [] [] "k" "a" (VInt 1)
            "#(+ a 1)" (VInt 2) eq_refl _ eq_refl eq_refl eq_refl eq_refl eq_refl
            eq_refl).
  discriminate.
Defined.

(* ------------------------------------------------------------------ *)
(** ** White space in a declaration line *)

Lemma parse_constant_spaced : forall cs ws1 name ws2 ws3 v,
  nonempty ws1 = true -> is_blank ws1 = true ->
  is_blank ws2 = true -> is_blank ws3 = true ->
  is_identifier name = true -> is_digits v = true ->
  _parse_constant cs ("def" ++ ws1 ++ name ++ ws2 ++ ":=" ++ ws3 ++ v)
  = OK (Dict.set name (VInt (digits_value 0 v)) cs).
Proof.
  intros cs ws1 name ws2 ws3 v Hn1 H1 H2 H3 Hk Hv.
  unfold _parse_constant.
  rewrite (constant_match_spaced ws1 name ws2 ws3 v); auto.
  unfold group. cbn [nth].
  destruct (digits_chars _ Hv) as [Hne Hic].
  rewrite replace_newlines_id, strip_tight.
  - now rewrite (evaluate_digits _ _ Hv).
  - now apply digits_stop_space.
  - apply (forallb_str_impl ident_char); auto.
    intros c Hc. unfold nonspace_char. now rewrite (ident_char_nonspace _ Hc).
  - apply (forallb_str_impl ident_char); auto with chars.
Qed.

(** X18: in a declaration line, as the loop of [parse] takes it, [def]
    is followed by a space; after that space any further white space, and
    any white space (also none) before and after [:=], is accepted, and the
    line stores the integer under the name, inside a block or outside. A
    line in which another character follows [def] is no declaration: with
    no block open it fails as an unexpected line. *)
Theorem declaration_spacing_is_free : forall cs doc cur ws1 name ws2 ws3 v,
  is_blank ws1 = true -> is_blank ws2 = true -> is_blank ws3 = true ->
  is_identifier name = true -> is_digits v = true ->
  step (mkState cs doc cur) ("def " ++ ws1 ++ name ++ ws2 ++ ":=" ++ ws3 ++ v)
  = OK (mkState (Dict.set name (VInt (digits_value 0 v)) cs) doc cur) /\
  (forall raw c rest,
     strip raw = "def" ++ String c rest -> is_char " " c = false ->
     step (mkState cs doc None) raw
     = Err (SyntaxError ("Unexpected line: " ++ strip raw))).
Proof.
  intros cs doc cur ws1 name ws2 ws3 v H1 H2 H3 Hk Hv. split.
  - destruct (digits_chars _ Hv) as [Hne Hic].
    destruct (nonempty_last _ _ Hne Hic) as (a & c & Ev & Hc).
    assert (Hline : strip ("def " ++ ws1 ++ name ++ ws2 ++ ":=" ++ ws3 ++ v)
                    = "def " ++ ws1 ++ name ++ ws2 ++ ":=" ++ ws3 ++ v).
    { apply (strip_edges _ ("def " ++ ws1 ++ name ++ ws2 ++ ":=" ++ ws3 ++ a) c);
        auto with chars.
      rewrite Ev. now rewrite !append_assoc. }
    assert (Hp : _parse_constant cs ("def " ++ ws1 ++ name ++ ws2 ++ ":=" ++ ws3 ++ v)
                 = OK (Dict.set name (VInt (digits_value 0 v)) cs)).
    { apply (parse_constant_spaced cs (String " " ws1) name ws2 ws3 v); auto. }
    unfold step. rewrite Hline.
    cbn [append nonempty startswith is_char Ascii.eqb Bool.eqb negb orb andb constants].
    change (String "d" (String "e" (String "f" (String " "
              (ws1 ++ name ++ ws2 ++ String ":" (String "=" (ws3 ++ v)))))))
      with ("def " ++ ws1 ++ name ++ ws2 ++ ":=" ++ ws3 ++ v).
    now rewrite Hp.
  - intros raw c rest E Hc. unfold step. rewrite E.
    cbn [append nonempty startswith negb orb andb current_dict].
    replace (is_char "#" "d") with false by reflexivity.
    replace (is_char "@" "d") with false by reflexivity.
    rewrite !is_char_refl, Hc. reflexivity.
Qed.

Lemma declaration_spacing_is_free_witness :
  step (mkState [] [] None) ("def " ++ String "009" " " ++ "size" ++ "" ++ ":=" ++ "   " ++ "10")
  = OK (mkState [("size", VInt 10)] [] None) /\
  step (mkState [] [] None) ("def" ++ String "009" "size := 10")
  = Err (SyntaxError ("Unexpected line: " ++ "def" ++ String "009" "size := 10")).
Proof.
  destruct (declaration_spacing_is_free [] [] None (String "009" " ") "size" "" "   " "10"
              eq_refl eq_refl eq_refl eq_refl eq_refl) as [H1 H2].
  split; [exact H1|].
  exact (H2 ("def" ++ String "009" "size := 10") "009"%char "size := 10" eq_refl eq_refl).
Defined.
